(** * go_download_attachment: a shallow embedding of [main.go]

    The program renders a page, collects the [src] attribute of every
    [img] element, resolves each one against the page URL, derives a local
    file name and downloads the resource.

    A Go [string] is a sequence of bytes: it is modelled by Rocq's [string]
    (a list of 8-bit [ascii] characters).  The functions of the Go standard
    library the program calls ([path/filepath], [net/url], [strings]) are
    transcribed from the library's POSIX build (GOOS linux or darwin, where
    the path separator is the slash and there is no volume name); the HTTP
    client, the file system and the browser are an explicit world that is
    passed through the program. *)

From Stdlib Require Import Ascii String Decimal DecimalString DecimalNat.
From stdpp Require Import base strings gmap list.


(** ** Byte strings: indexing and slicing as Go writes them *)

Module gostr.

(** [len(s)] *)
Definition len (s : string) : nat := String.length s.

(** [s[n:]] *)
Fixpoint drop (n : nat) (s : string) : string :=
  match n, s with
  | 0, _ => s
  | S _, EmptyString => EmptyString
  | S k, String _ t => drop k t
  end.

(** [s[:n]] *)
Fixpoint take (n : nat) (s : string) : string :=
  match n, s with
  | 0, _ => EmptyString
  | S _, EmptyString => EmptyString
  | S k, String c t => String c (take k t)
  end.

(** [s[i:j]] *)
Definition slice (i j : nat) (s : string) : string := take (j - i) (drop i s).

(** [s[i]]; [None] stands for the index-out-of-range panic. *)
Definition at_ (i : nat) (s : string) : option ascii := String.get i s.

(** [s == ""] *)
Definition is_empty (s : string) : bool :=
  match s with EmptyString => true | _ => false end.

(** The byte value of a character, for range tests such as ['a' <= c]. *)
Definition code (c : ascii) : nat := nat_of_ascii c.

Definition between (lo hi : ascii) (c : ascii) : bool :=
  (code lo <=? code c) && (code c <=? code hi).

(** Is [c] one of the characters of [set]? (a Go [switch c] [case] list) *)
Fixpoint one_of (set : string) (c : ascii) : bool :=
  match set with
  | EmptyString => false
  | String d t => Ascii.eqb c d || one_of t c
  end.

End gostr.

(** ** Package [strings] *)

Module strings.
Import gostr.

(** [strings.HasPrefix(s, prefix)] *)
Definition HasPrefix (s prefix : string) : bool := String.prefix prefix s.

(** [strings.Index(s, substr)]: index of the first instance, [None] for -1. *)
Fixpoint Index (s substr : string) : option nat :=
  if String.prefix substr s then Some 0
  else match s with
       | EmptyString => None
       | String _ t => S <$> Index t substr
       end.

(** [strings.LastIndex(s, substr)]: index of the last instance. *)
Fixpoint LastIndex (s substr : string) : option nat :=
  match s with
  | EmptyString => if String.prefix substr s then Some 0 else None
  | String _ t =>
      match LastIndex t substr with
      | Some i => Some (S i)
      | None => if String.prefix substr s then Some 0 else None
      end
  end.

(** [strings.Contains(s, substr)] *)
Definition Contains (s substr : string) : bool :=
  match Index s substr with Some _ => true | None => false end.

(** [strings.Cut(s, sep)]: [(before, after, found)]. *)
Definition Cut (s sep : string) : string * string * bool :=
  match Index s sep with
  | Some i => (take i s, drop (i + len sep) s, true)
  | None => (s, EmptyString, false)
  end.

(** [strings.HasSuffix(s, suffix)] *)
Definition HasSuffix (s suffix : string) : bool :=
  (len suffix <=? len s) && String.eqb (drop (len s - len suffix) s) suffix.

(** [strings.Count(s, substr)] for a one-byte [substr]. *)
Fixpoint CountByte (s : string) (c : ascii) : nat :=
  match s with
  | EmptyString => 0
  | String d t => (if Ascii.eqb d c then 1 else 0) + CountByte t c
  end.

(** [strings.ToLower] on the ASCII letters, which is all a scheme can hold. *)
Definition lower (c : ascii) : ascii :=
  if between "A" "Z" c then ascii_of_nat (code c + 32) else c.

Fixpoint ToLower (s : string) : string :=
  match s with
  | EmptyString => EmptyString
  | String c t => String (lower c) (ToLower t)
  end.

End strings.

(** ** Package [path/filepath] (POSIX build) *)

Module filepath.
Import gostr.

(** [os.IsPathSeparator(c)]: [PathSeparator == c], with separator ['/']. *)
Definition IsPathSeparator (c : ascii) : bool := Ascii.eqb c "/".

(** The first loop of [Base]:
    [for len(path) > 0 && os.IsPathSeparator(path[len(path)-1]) { path = path[0 : len(path)-1] }];
    [n] is [len(path)]. *)
Fixpoint stripTrailing (n : nat) (path : string) : string :=
  match n with
  | 0 => path
  | S k =>
      match at_ k path with
      | Some c => if IsPathSeparator c then stripTrailing k (take k path) else path
      | None => path
      end
  end.

(** The second loop of [Base]:
    [i := len(path) - 1; for i >= 0 && !os.IsPathSeparator(path[i]) { i-- }];
    the argument and the result are [i + 1], so that [0] stands for
    [i == -1]. *)
Fixpoint lastSeparator (n : nat) (path : string) : nat :=
  match n with
  | 0 => 0
  | S i =>
      match at_ i path with
      | Some c => if IsPathSeparator c then n else lastSeparator i path
      | None => n
      end
  end.

(** [filepath.Base(path)] *)
Definition Base (path : string) : string :=
  if is_empty path then "."
  else
    (* Strip trailing slashes. *)
    let path := stripTrailing (len path) path in
    (* Throw away volume name: VolumeName is empty on POSIX. *)
    (* Find the last element. *)
    let i1 := lastSeparator (len path) path in
    let path := if 0 <? i1 then drop i1 path else path in
    (* If empty now, it had only slashes. *)
    if is_empty path then "/" else path.

(** [filepath.Ext(path)]:
    [for i := len(path) - 1; i >= 0 && !os.IsPathSeparator(path[i]); i-- {
       if path[i] == '.' { return path[i:] } }
     return ""]; the argument [n] is [i + 1]. *)
Fixpoint Ext_loop (n : nat) (path : string) : string :=
  match n with
  | 0 => ""
  | S i =>
      match at_ i path with
      | Some c =>
          if IsPathSeparator c then ""
          else if Ascii.eqb c "." then drop i path
          else Ext_loop i path
      | None => ""
      end
  end.

Definition Ext (path : string) : string := Ext_loop (len path) path.

(** The backtracking loop of [Clean] on a [..] element:
    [for out.w > dotdot && !os.IsPathSeparator(out.index(out.w)) { out.w-- }];
    the result is the new [out.w]. *)
Fixpoint Clean_backtrack (w dotdot : nat) (out : string) : nat :=
  match w with
  | 0 => 0
  | S w' =>
      if (dotdot <? w)
         && negb (match at_ w out with Some c => IsPathSeparator c | None => false end)
      then Clean_backtrack w' dotdot out
      else w
  end.

(** The copy loop of [Clean] on a real path element:
    [for ; r < n && !os.IsPathSeparator(path[r]); r++ { out.append(path[r]) }];
    [rest] is [path[r:]] and the result is the element and what follows it. *)
Fixpoint Clean_element (rest : string) : string * string :=
  match rest with
  | EmptyString => (EmptyString, EmptyString)
  | String c t =>
      if IsPathSeparator c then (EmptyString, rest)
      else let '(e, rest') := Clean_element t in (String c e, rest')
  end.

(** The main loop of [Clean], [for r < n { switch ... }]: [rest] is
    [path[r:]], [out] the bytes written so far ([out.w] is its length).
    Every pass consumes at least one byte of [rest]. *)
Fixpoint Clean_loop (fuel : nat) (rooted : bool) (rest out : string) (dotdot : nat)
  : string :=
  match fuel, rest with
  | _, EmptyString => out
  | 0, _ => out
  | S fuel, String c t =>
      if IsPathSeparator c then
        (* empty path element *)
        Clean_loop fuel rooted t out dotdot
      else if Ascii.eqb c "."
              && match t with EmptyString => true | String d _ => IsPathSeparator d end
      then
        (* . element *)
        Clean_loop fuel rooted t out dotdot
      else if Ascii.eqb c "."
              && match t with
                 | String "." EmptyString => true
                 | String "." (String d _) => IsPathSeparator d
                 | _ => false
                 end
      then
        (* .. element: remove to last separator *)
        let rest := drop 2 rest in
        if dotdot <? len out then
          (* can backtrack *)
          let w := Clean_backtrack (len out - 1) dotdot out in
          Clean_loop fuel rooted rest (take w out) dotdot
        else if negb rooted then
          (* cannot backtrack, but not rooted, so append .. element. *)
          let out := (if 0 <? len out then out +:+ "/" else out) +:+ ".." in
          Clean_loop fuel rooted rest out (len out)
        else Clean_loop fuel rooted rest out dotdot
      else
        (* real path element: add slash if needed, copy element *)
        let out :=
          if rooted && negb (len out =? 1) || negb rooted && negb (len out =? 0)
          then out +:+ "/" else out in
        let '(e, rest) := Clean_element rest in
        Clean_loop fuel rooted rest (out +:+ e) dotdot
  end.

(** [filepath.Clean(path)] *)
Definition Clean (path : string) : string :=
  match path with
  | EmptyString => "."
  | String c t =>
      let rooted := IsPathSeparator c in
      let out :=
        if rooted then Clean_loop (len path) rooted t "/" 1
        else Clean_loop (len path) rooted path "" 0 in
      (* Turn empty string into "." *)
      if is_empty out then "." else out
  end.

(** [filepath.Join(dir, name)]: the first non-empty element onwards,
    joined by the separator and cleaned. *)
Definition Join (dir name : string) : string :=
  if negb (is_empty dir) then Clean (dir +:+ "/" +:+ name)
  else if negb (is_empty name) then Clean name
  else "".

End filepath.

(** ** Results of fallible calls: a Go [(value, error)] pair *)

Inductive res (E A : Type) : Type :=
| ok (a : A)
| fail (e : E).
Arguments ok {E A} a.
Arguments fail {E A} e.

Definition res_bind {E A B} (r : res E A) (k : A -> res E B) : res E B :=
  match r with ok a => k a | fail e => fail e end.

Notation "'try' x <- r ; k" := (res_bind r (fun x => k))
  (at level 10, x name, r at level 100, k at level 200).

(** ** Package [net/url]

    [Parse], [URL.ResolveReference] and [URL.String] with the functions
    they call, as in the Go 1.22 library. *)

Module url.
Import gostr.

(** The errors [Parse] can return (the [Err] field of [*url.Error]). *)
Inductive err : Type :=
| InvalidControlCharacter   (* net/url: invalid control character in URL *)
| EmptyURL                  (* empty url *)
| MissingProtocolScheme     (* missing protocol scheme *)
| InvalidURIForRequest      (* invalid URI for request *)
| ColonInFirstSegment       (* first path segment in URL cannot contain colon *)
| EscapeError (s : string)
| InvalidHostError (s : string)
| MissingBracket            (* missing ']' in host *)
| InvalidPort (colonPort : string)
| InvalidUserinfo.          (* net/url: invalid userinfo *)

Inductive encoding : Type :=
| encodePath | encodePathSegment | encodeHost | encodeZone
| encodeUserPassword | encodeQueryComponent | encodeFragment.

Definition encoding_eqb (a b : encoding) : bool :=
  match a, b with
  | encodePath, encodePath | encodePathSegment, encodePathSegment
  | encodeHost, encodeHost | encodeZone, encodeZone
  | encodeUserPassword, encodeUserPassword
  | encodeQueryComponent, encodeQueryComponent
  | encodeFragment, encodeFragment => true
  | _, _ => false
  end.

Record Userinfo : Type := {
  username : string;
  password : string;
  passwordSet : bool
}.

Record URL : Type := {
  Scheme : string;
  Opaque : string;            (* encoded opaque data *)
  User : option Userinfo;     (* nil is None *)
  Host : string;              (* host or host:port *)
  Path : string;              (* path (relative paths may omit leading slash) *)
  RawPath : string;           (* encoded path hint *)
  OmitHost : bool;
  ForceQuery : bool;
  RawQuery : string;          (* encoded query values, without '?' *)
  Fragment : string;          (* fragment for references, without '#' *)
  RawFragment : string        (* encoded fragment hint *)
}.

(** [new(URL)] *)
Definition zero : URL :=
  {| Scheme := ""; Opaque := ""; User := None; Host := ""; Path := "";
     RawPath := ""; OmitHost := false; ForceQuery := false; RawQuery := "";
     Fragment := ""; RawFragment := "" |}.

Definition isalpha (c : ascii) : bool := between "a" "z" c || between "A" "Z" c.
Definition isdigit (c : ascii) : bool := between "0" "9" c.

Definition ishex (c : ascii) : bool :=
  between "0" "9" c || between "a" "f" c || between "A" "F" c.

Definition unhex (c : ascii) : nat :=
  if between "0" "9" c then code c - code "0"
  else if between "a" "f" c then code c - code "a" + 10
  else if between "A" "F" c then code c - code "A" + 10
  else 0.

Definition upperhex (n : nat) : ascii :=
  match at_ n "0123456789ABCDEF" with Some c => c | None => "0"%char end.

(** The characters a host may hold unescaped ([shouldEscape], host and
    zone modes); the double quote is byte 34. *)
Definition host_plain : string := String "034" "!$&'()*+,;=:[]<>".

(** [shouldEscape(c, mode)] *)
Definition shouldEscape (c : ascii) (mode : encoding) : bool :=
  (* §2.3 Unreserved characters (alphanum) *)
  if isalpha c || isdigit c then false
  else if (encoding_eqb mode encodeHost || encoding_eqb mode encodeZone)
          && one_of host_plain c then false
  else if one_of "-_.~" c then false       (* §2.3 Unreserved characters (mark) *)
  else if one_of "$&+,/:;=?@" c then       (* §2.2 Reserved characters (reserved) *)
    match mode with
    | encodePath => Ascii.eqb c "?"
    | encodePathSegment => one_of "/;,?" c
    | encodeUserPassword => one_of "@/?:" c
    | encodeQueryComponent => true
    | encodeFragment => false
    | encodeHost | encodeZone => true
    end
  else if encoding_eqb mode encodeFragment && one_of "!()*" c then false
  else true.                               (* Everything else must be escaped. *)

(** The first pass of [unescape]: check that every ['%'] is well formed
    (and, in a host, that nothing needs escaping); [None] is success. *)
Fixpoint unescape_check (s : string) (mode : encoding) : option err :=
  match s with
  | EmptyString => None
  | String c t =>
      if Ascii.eqb c "%" then
        match t with
        | String a (String b t') =>
            if negb (ishex a) || negb (ishex b) then Some (EscapeError (take 3 s))
            else if encoding_eqb mode encodeHost && (unhex a <? 8)
                    && negb (String.eqb (take 3 s) "%25")
            then Some (EscapeError (take 3 s))
            else if encoding_eqb mode encodeZone
                    && negb (String.eqb (take 3 s) "%25")
                    && negb (Ascii.eqb (ascii_of_nat (unhex a * 16 + unhex b)) " ")
                    && shouldEscape (ascii_of_nat (unhex a * 16 + unhex b)) encodeHost
            then Some (EscapeError (take 3 s))
            else unescape_check t' mode
        | _ => Some (EscapeError (take 3 s))
        end
      else if Ascii.eqb c "+" then unescape_check t mode
      else if (encoding_eqb mode encodeHost || encoding_eqb mode encodeZone)
              && (code c <? 128) && shouldEscape c encodeHost
      then Some (InvalidHostError (String c ""))
      else unescape_check t mode
  end.

(** The second pass of [unescape]: decode (a string without ['%'] and
    without a ['+'] to turn into a space is returned as it is, which is
    what this gives too). *)
Fixpoint unescape_decode (s : string) (mode : encoding) : string :=
  match s with
  | EmptyString => EmptyString
  | String c t =>
      if Ascii.eqb c "%" then
        match t with
        | String a (String b t') =>
            String (ascii_of_nat (unhex a * 16 + unhex b)) (unescape_decode t' mode)
        | _ => String c (unescape_decode t mode)
        end
      else if Ascii.eqb c "+" then
        String (if encoding_eqb mode encodeQueryComponent then " "%char else "+"%char)
               (unescape_decode t mode)
      else String c (unescape_decode t mode)
  end.

(** [unescape(s, mode)] *)
Definition unescape (s : string) (mode : encoding) : res err string :=
  match unescape_check s mode with
  | Some e => fail e
  | None => ok (unescape_decode s mode)
  end.

(** [escape(s, mode)] *)
Fixpoint escape (s : string) (mode : encoding) : string :=
  match s with
  | EmptyString => EmptyString
  | String c t =>
      if Ascii.eqb c " " && encoding_eqb mode encodeQueryComponent
      then String "+" (escape t mode)
      else if shouldEscape c mode
      then String "%" (String (upperhex (code c / 16))
                      (String (upperhex (code c mod 16)) (escape t mode)))
      else String c (escape t mode)
  end.

(** [validEncoded(s, mode)] *)
Fixpoint validEncoded (s : string) (mode : encoding) : bool :=
  match s with
  | EmptyString => true
  | String c t =>
      (if one_of "!$&'()*+,;=:@" c then true
       else if one_of "[]" c then true
       else if Ascii.eqb c "%" then true
       else negb (shouldEscape c mode))
      && validEncoded t mode
  end.

(** [stringContainsCTLByte(s)] *)
Fixpoint stringContainsCTLByte (s : string) : bool :=
  match s with
  | EmptyString => false
  | String b t => (code b <? code " ") || (code b =? 127) || stringContainsCTLByte t
  end.

(** [getScheme(rawURL)]: [(scheme, path, err)]; [rest] is [rawURL[i:]]. *)
Fixpoint getScheme_loop (i : nat) (rest rawURL : string) : res err (string * string) :=
  match rest with
  | EmptyString => ok ("", rawURL)
  | String c t =>
      if isalpha c then getScheme_loop (S i) t rawURL
      else if isdigit c || one_of "+-." c then
        if i =? 0 then ok ("", rawURL) else getScheme_loop (S i) t rawURL
      else if Ascii.eqb c ":" then
        if i =? 0 then fail MissingProtocolScheme
        else ok (take i rawURL, drop (i + 1) rawURL)
      else ok ("", rawURL)
  end.

Definition getScheme (rawURL : string) : res err (string * string) :=
  getScheme_loop 0 rawURL rawURL.

(** [validOptionalPort(port)] *)
Fixpoint all_digits (s : string) : bool :=
  match s with
  | EmptyString => true
  | String b t => isdigit b && all_digits t
  end.

Definition validOptionalPort (port : string) : bool :=
  match port with
  | EmptyString => true
  | String c t => Ascii.eqb c ":" && all_digits t
  end.

(** [validUserinfo(s)] *)
Fixpoint validUserinfo (s : string) : bool :=
  match s with
  | EmptyString => true
  | String r t =>
      (isalpha r || isdigit r || one_of "-._:~!$&'()*+,;=%@" r) && validUserinfo t
  end.

(** [parseHost(host)] *)
Definition parseHost (host : string) : res err string :=
  if strings.HasPrefix host "[" then
    match strings.LastIndex host "]" with
    | None => fail MissingBracket
    | Some i =>
        let colonPort := drop (i + 1) host in
        if negb (validOptionalPort colonPort) then fail (InvalidPort colonPort)
        else
          match strings.Index (take i host) "%25" with
          | Some zone =>
              try host1 <- unescape (take zone host) encodeHost ;
              try host2 <- unescape (slice zone i host) encodeZone ;
              try host3 <- unescape (drop i host) encodeHost ;
              ok (host1 +:+ host2 +:+ host3)
          | None => unescape host encodeHost
          end
    end
  else
    match strings.LastIndex host ":" with
    | Some i =>
        let colonPort := drop i host in
        if negb (validOptionalPort colonPort) then fail (InvalidPort colonPort)
        else unescape host encodeHost
    | None => unescape host encodeHost
    end.

(** [parseAuthority(authority)]: [(user, host, err)] *)
Definition parseAuthority (authority : string) : res err (option Userinfo * string) :=
  let i := strings.LastIndex authority "@" in
  try host <- parseHost (match i with None => authority | Some i => drop (i + 1) authority end) ;
  match i with
  | None => ok (None, host)
  | Some i =>
      let userinfo := take i authority in
      if negb (validUserinfo userinfo) then fail InvalidUserinfo
      else if negb (strings.Contains userinfo ":") then
        try userinfo <- unescape userinfo encodeUserPassword ;
        ok (Some {| username := userinfo; password := ""; passwordSet := false |}, host)
      else
        let '(username, password, _) := strings.Cut userinfo ":" in
        try username <- unescape username encodeUserPassword ;
        try password <- unescape password encodeUserPassword ;
        ok (Some {| username := username; password := password; passwordSet := true |}, host)
  end.

(** [u.setPath(p)]: sets [Path] and [RawPath]. *)
Definition setPath (u : URL) (p : string) : res err URL :=
  try path <- unescape p encodePath ;
  ok {| Scheme := Scheme u; Opaque := Opaque u; User := User u; Host := Host u;
        Path := path;
        RawPath := if String.eqb p (escape path encodePath) then "" else p;
        OmitHost := OmitHost u; ForceQuery := ForceQuery u;
        RawQuery := RawQuery u; Fragment := Fragment u;
        RawFragment := RawFragment u |}.

(** [u.setFragment(f)]: sets [Fragment] and [RawFragment]. *)
Definition setFragment (u : URL) (f : string) : res err URL :=
  try frag <- unescape f encodeFragment ;
  ok {| Scheme := Scheme u; Opaque := Opaque u; User := User u; Host := Host u;
        Path := Path u; RawPath := RawPath u;
        OmitHost := OmitHost u; ForceQuery := ForceQuery u;
        RawQuery := RawQuery u; Fragment := frag;
        RawFragment := if String.eqb f (escape frag encodeFragment) then "" else f |}.

(** [u.EscapedPath()] *)
Definition EscapedPath (u : URL) : string :=
  if negb (is_empty (RawPath u)) && validEncoded (RawPath u) encodePath
     && match unescape (RawPath u) encodePath with
        | ok p => String.eqb p (Path u)
        | fail _ => false
        end
  then RawPath u
  else if String.eqb (Path u) "*" then "*"
  else escape (Path u) encodePath.

(** [u.EscapedFragment()] *)
Definition EscapedFragment (u : URL) : string :=
  if negb (is_empty (RawFragment u)) && validEncoded (RawFragment u) encodeFragment
     && match unescape (RawFragment u) encodeFragment with
        | ok f => String.eqb f (Fragment u)
        | fail _ => false
        end
  then RawFragment u
  else escape (Fragment u) encodeFragment.

(** [parse(rawURL, viaRequest)] *)
Definition parse (rawURL : string) (viaRequest : bool) : res err URL :=
  if stringContainsCTLByte rawURL then fail InvalidControlCharacter
  else if is_empty rawURL && viaRequest then fail EmptyURL
  else if String.eqb rawURL "*" then
    ok {| Scheme := ""; Opaque := ""; User := None; Host := ""; Path := "*";
          RawPath := ""; OmitHost := false; ForceQuery := false; RawQuery := "";
          Fragment := ""; RawFragment := "" |}
  else
    (* Split off possible leading "http:", "mailto:", etc. *)
    try sr <- getScheme rawURL ;
    let scheme := strings.ToLower (fst sr) in
    let rest := snd sr in
    let '(rest, forceQuery, rawQuery) :=
      if strings.HasSuffix rest "?" && (strings.CountByte rest "?" =? 1)
      then (take (len rest - 1) rest, true, "")
      else let '(before, after, _) := strings.Cut rest "?" in (before, false, after) in
    if negb (strings.HasPrefix rest "/") && negb (is_empty scheme) then
      (* We consider rootless paths per RFC 3986 as opaque. *)
      ok {| Scheme := scheme; Opaque := rest; User := None; Host := ""; Path := "";
            RawPath := ""; OmitHost := false; ForceQuery := forceQuery;
            RawQuery := rawQuery; Fragment := ""; RawFragment := "" |}
    else if negb (strings.HasPrefix rest "/") && viaRequest then fail InvalidURIForRequest
    else if negb (strings.HasPrefix rest "/")
            && strings.Contains (fst (fst (strings.Cut rest "/"))) ":"
    then fail ColonInFirstSegment   (* not allowed in relative URL *)
    else if (negb (is_empty scheme)
             || negb viaRequest && negb (strings.HasPrefix rest "///"))
            && strings.HasPrefix rest "//"
    then
      let authority := drop 2 rest in
      let '(authority, rest) :=
        match strings.Index authority "/" with
        | Some i => (take i authority, drop i authority)
        | None => (authority, "")
        end in
      try uh <- parseAuthority authority ;
      setPath {| Scheme := scheme; Opaque := ""; User := fst uh;
                 Host := snd uh; Path := ""; RawPath := "";
                 OmitHost := false; ForceQuery := forceQuery;
                 RawQuery := rawQuery; Fragment := ""; RawFragment := "" |} rest
    else
      (* OmitHost is set to true when rawURL has an empty host (authority). *)
      setPath {| Scheme := scheme; Opaque := ""; User := None; Host := "";
                 Path := ""; RawPath := "";
                 OmitHost := negb (is_empty scheme) && strings.HasPrefix rest "/";
                 ForceQuery := forceQuery; RawQuery := rawQuery;
                 Fragment := ""; RawFragment := "" |} rest.

(** What [*url.Error] carries: the operation, the URL and the cause. *)
Record Error : Type := { Op : string; URL_ : string; Err : err }.

(** [url.Parse(rawURL)] *)
Definition Parse (rawURL : string) : res Error URL :=
  (* Cut off #frag *)
  let '(u, frag, _) := strings.Cut rawURL "#" in
  match parse u false with
  | fail e => fail {| Op := "parse"; URL_ := u; Err := e |}
  | ok url =>
      if is_empty frag then ok url
      else match setFragment url frag with
           | fail e => fail {| Op := "parse"; URL_ := rawURL; Err := e |}
           | ok url => ok url
           end
  end.

(** [u.User.String()] for a non-nil [u.User]. *)
Definition Userinfo_String (ui : Userinfo) : string :=
  let s := escape (username ui) encodeUserPassword in
  if passwordSet ui then s +:+ ":" +:+ escape (password ui) encodeUserPassword else s.

(** [u.User != nil] *)
Definition has_user (u : URL) : bool :=
  match User u with Some _ => true | None => false end.

(** [u.String()]: the pieces are appended to the buffer in this order. *)
Definition String_ (u : URL) : string :=
  let buf := if negb (is_empty (Scheme u)) then Scheme u +:+ ":" else "" in
  let buf :=
    if negb (is_empty (Opaque u)) then buf +:+ Opaque u
    else
      let buf :=
        if negb (is_empty (Scheme u)) || negb (is_empty (Host u)) || has_user u
        then
          if OmitHost u && is_empty (Host u) && negb (has_user u)
          then buf   (* omit empty host *)
          else
            let buf :=
              if negb (is_empty (Host u)) || negb (is_empty (Path u))
                 || has_user u
              then buf +:+ "//" else buf in
            let buf :=
              match User u with
              | Some ui => buf +:+ Userinfo_String ui +:+ "@"
              | None => buf
              end in
            if negb (is_empty (Host u)) then buf +:+ escape (Host u) encodeHost else buf
        else buf in
      let path := EscapedPath u in
      let buf :=
        if negb (is_empty path) && negb (strings.HasPrefix path "/")
           && negb (is_empty (Host u))
        then buf +:+ "/" else buf in
      let buf :=
        if is_empty buf
           && strings.Contains (fst (fst (strings.Cut path "/"))) ":"
        then buf +:+ "./" else buf in
      buf +:+ path in
  let buf :=
    if ForceQuery u || negb (is_empty (RawQuery u))
    then buf +:+ "?" +:+ RawQuery u else buf in
  if negb (is_empty (Fragment u)) then buf +:+ "#" +:+ EscapedFragment u else buf.

(** One pass of the loop of [resolvePath] on the element [elem]: the
    builder [dst] and the flag [first]. *)
Definition resolvePath_step (dst : string) (first : bool) (elem : string)
  : string * bool :=
  if String.eqb elem "." then (dst, false)   (* drop *)
  else if String.eqb elem ".." then
    (* Ignore the leading '/' we already wrote. *)
    let str := drop 1 dst in
    match strings.LastIndex str "/" with
    | None => ("/", true)
    | Some index => ("/" +:+ take index str, first)
    end
  else ((if first then dst else dst +:+ "/") +:+ elem, false).

(** The loop of [resolvePath]:
    [for found { elem, remaining, found = strings.Cut(remaining, "/"); ... }];
    it returns the builder and the last [elem].  Every pass with [found]
    shortens [remaining], so [S (len remaining)] passes are enough. *)
Fixpoint resolvePath_loop (fuel : nat) (remaining dst : string) (first : bool)
  : string * string :=
  let '(elem, remaining, found) := strings.Cut remaining "/" in
  let '(dst, first) := resolvePath_step dst first elem in
  if found then
    match fuel with
    | 0 => (dst, elem)
    | S fuel => resolvePath_loop fuel remaining dst first
    end
  else (dst, elem).

(** [resolvePath(base, ref)] *)
Definition resolvePath (base ref : string) : string :=
  let full :=
    if is_empty ref then base
    else if negb (strings.HasPrefix ref "/") then
      match strings.LastIndex base "/" with
      | Some i => take (i + 1) base +:+ ref
      | None => ref                        (* base[:0] + ref *)
      end
    else ref in
  if is_empty full then ""
  else
    (* We want to return a leading '/', so write it now. *)
    let '(dst, elem) := resolvePath_loop (len full) full "/" true in
    let dst :=
      if String.eqb elem "." || String.eqb elem ".." then dst +:+ "/" else dst in
    (* We wrote an initial '/', but we don't want two. *)
    if (1 <? len dst) && bool_decide (at_ 1 dst = Some "/"%char) then drop 1 dst
    else dst.

(** [url.setPath(p)] where the caller ignores the error: on an error the
    receiver is left as it was. *)
Definition setPath_ignore (u : URL) (p : string) : URL :=
  match setPath u p with ok u' => u' | fail _ => u end.

(** [u.ResolveReference(ref)] *)
Definition ResolveReference (u ref : URL) : URL :=
  let url :=   (* url := *ref; if ref.Scheme == "" { url.Scheme = u.Scheme } *)
    {| Scheme := if is_empty (Scheme ref) then Scheme u else Scheme ref;
       Opaque := Opaque ref; User := User ref; Host := Host ref;
       Path := Path ref; RawPath := RawPath ref; OmitHost := OmitHost ref;
       ForceQuery := ForceQuery ref; RawQuery := RawQuery ref;
       Fragment := Fragment ref; RawFragment := RawFragment ref |} in
  if negb (is_empty (Scheme ref)) || negb (is_empty (Host ref)) || has_user ref then
    (* The "absoluteURI" or "net_path" cases. *)
    setPath_ignore url (resolvePath (EscapedPath ref) "")
  else if negb (is_empty (Opaque ref)) then
    {| Scheme := Scheme url; Opaque := Opaque url; User := None; Host := "";
       Path := ""; RawPath := RawPath url; OmitHost := OmitHost url;
       ForceQuery := ForceQuery url; RawQuery := RawQuery url;
       Fragment := Fragment url; RawFragment := RawFragment url |}
  else
    let inherit := is_empty (Path ref) && negb (ForceQuery ref) && is_empty (RawQuery ref) in
    let url :=
      {| Scheme := Scheme url; Opaque := Opaque url; User := User url; Host := Host url;
         Path := Path url; RawPath := RawPath url; OmitHost := OmitHost url;
         ForceQuery := ForceQuery url;
         RawQuery := if inherit then RawQuery u else RawQuery url;
         Fragment :=
           if inherit && is_empty (Fragment ref) then Fragment u else Fragment url;
         RawFragment :=
           if inherit && is_empty (Fragment ref) then RawFragment u
           else RawFragment url |} in
    if is_empty (Path ref) && negb (is_empty (Opaque u)) then
      {| Scheme := Scheme url; Opaque := Opaque u; User := None; Host := "";
         Path := ""; RawPath := RawPath url; OmitHost := OmitHost url;
         ForceQuery := ForceQuery url; RawQuery := RawQuery url;
         Fragment := Fragment url; RawFragment := RawFragment url |}
    else
      (* The "abs_path" or "rel_path" cases. *)
      setPath_ignore
        {| Scheme := Scheme url; Opaque := Opaque url; User := User u; Host := Host u;
           Path := Path url; RawPath := RawPath url; OmitHost := OmitHost url;
           ForceQuery := ForceQuery url; RawQuery := RawQuery url;
           Fragment := Fragment url; RawFragment := RawFragment url |}
        (resolvePath (EscapedPath u) (EscapedPath ref)).

(** [u.Parse(ref)]: parse [ref] in the context of the receiver. *)
Definition URL_Parse (u : URL) (ref : string) : res Error URL :=
  match Parse ref with
  | fail e => fail e
  | ok refURL => ok (ResolveReference u refURL)
  end.

End url.

(** ** [main.go]: the extension helper and the name of the downloaded file *)

(** [getFileExtension] (main.go, lines 126-132). *)
Definition getFileExtension (path : string) : string :=
  let ext := filepath.Ext path in
  if gostr.is_empty ext then ".jpg" else ext.

(** [%d] of a non-negative [int]. *)
Definition fmt_d (n : nat) : string := NilZero.string_of_uint (Nat.to_uint n).

(** Lines 91-95 of [main]: the file name of entry [i] (0-based) from the
    path of its resolved URL. *)
Definition deriveName (urlPath : string) (i : nat) : string :=
  let fileName := filepath.Base urlPath in
  if String.eqb fileName "" || String.eqb fileName "/" || String.eqb fileName "."
  then "image_" +:+ fmt_d (i + 1) +:+ getFileExtension urlPath
  else fileName.

(** ** The world the program runs in *)

(** A Go [error] value: one made by the program itself, the error of
    [url.Parse], or one a library call reports (known by its message). *)
Inductive error : Type :=
| StatusNotOK (status : string)
    (* fmt.Errorf("HTTPステータスがOKではありません: %s", resp.Status) *)
| URLError (e : url.Error)
| LibraryError (msg : string).

Module http.
(** [*http.Response]: the status line and the bytes of the body. *)
Record Response : Type := {
  StatusCode : nat;
  Status : string;      (* e.g. "200 OK" *)
  Body : string
}.

Definition StatusOK : nat := 200.
End http.

(** What the program cannot decide itself: the answers of the browser, of
    the network and of the operating system. *)
Record Env : Type := {
  (** [os.MkdirAll(dir, 0755)] *)
  os_MkdirAll : string -> option error;
  (** [getChromeProfileDir()], which reads the home directory and GOOS *)
  chromeProfileDir : string;
  (** [chromedp.Run(ctx, Navigate(url), Sleep(2s), Evaluate(..., &imgSrcs))] *)
  chromedp_Run : string -> res error (list string);
  (** [http.Get(url)], redirects followed by the client *)
  http_Get : string -> res error http.Response;
  (** [os.Create(path)] fails at these paths (a directory, a missing
      parent, no permission) *)
  os_Create_error : string -> option error;
  (** [io.Copy] into the file at this path breaks off after so many bytes
      (the connection drops, the disk is full) *)
  io_Copy_error : string -> option (nat * error)
}.

(** The regular files of the file system, by path. *)
Abbreviation FS := (gmap string string).

(** What the program does that can be seen from outside, in order. *)
Inductive Event : Type :=
| Usage                                   (* flag.Usage() *)
| Fatal_MkdirAll (e : error)              (* log.Fatalf, line 33 *)
| Fatal_PageURL (e : url.Error)           (* log.Fatalf, line 39 *)
| Log_NoProfileDir                        (* log.Println, line 52 *)
| Fatal_Chromedp (e : error)              (* log.Fatalf, line 71 *)
| Stdout (text : string)                  (* fmt.Printf, line 88 *)
| Log_SrcParse (src : string) (e : url.Error)   (* log.Printf, line 83 *)
| Request (urlStr : string)               (* the GET that http.Get sends *)
| Log_Download (urlStr : string) (e : error).   (* log.Printf, line 98 *)

(** ** [main.go]: [downloadFile] (lines 104-123) *)

Definition downloadFile (env : Env) (urlStr outDir fileName : string) (fs : FS)
  : option error * FS :=
  match http_Get env urlStr with
  | fail err => (Some err, fs)
  | ok resp =>
      if negb (http.StatusCode resp =? http.StatusOK)
      then (Some (StatusNotOK (http.Status resp)), fs)
      else
        let filePath := filepath.Join outDir fileName in
        match os_Create_error env filePath with
        | Some err => (Some err, fs)
        | None =>
            (* os.Create: the file exists and is empty; io.Copy fills it *)
            match io_Copy_error env filePath with
            | Some (n, err) => (Some err, <[filePath := gostr.take n (http.Body resp)]> fs)
            | None => (None, <[filePath := http.Body resp]> fs)
            end
        end
  end.

(** ** [main.go]: the loop over the [src] values (lines 75-100) *)

(** Lines 76-85: the absolute URL of a [src], or why there is none. *)
Inductive Resolved : Type :=
| Skipped                       (* src == "": continue *)
| Unparsable (e : url.Error)    (* base.Parse failed: log and continue *)
| Absolute (imgURL : url.URL).

Definition resolve (base : url.URL) (src : string) : Resolved :=
  if gostr.is_empty src then Skipped
  else match url.URL_Parse base src with
       | fail err => Unparsable err
       | ok imgURL => Absolute imgURL
       end.

(** [fmt.Printf("Image %d: %s\n", i+1, imgURL.String())] *)
Definition image_line (i : nat) (imgURL : url.URL) : string :=
  "Image " +:+ fmt_d (i + 1) +:+ ": " +:+ url.String_ imgURL +:+ String "010" "".

(** One pass of the loop, for the entry [src] at index [i]. *)
Definition entry (env : Env) (base : url.URL) (outDir : string)
    (i : nat) (src : string) (fs : FS) : list Event * FS :=
  match resolve base src with
  | Skipped => ([], fs)
  | Unparsable err => ([Log_SrcParse src err], fs)
  | Absolute imgURL =>
      let fileName := deriveName (url.Path imgURL) i in
      let urlStr := url.String_ imgURL in
      match downloadFile env urlStr outDir fileName fs with
      | (Some err, fs) =>
          ([Stdout (image_line i imgURL); Request urlStr; Log_Download urlStr err], fs)
      | (None, fs) => ([Stdout (image_line i imgURL); Request urlStr], fs)
      end
  end.

(** [for i, src := range imgSrcs { ... }], from index [i] on. *)
Fixpoint loop (env : Env) (base : url.URL) (outDir : string)
    (i : nat) (imgSrcs : list string) (fs : FS) : list Event * FS :=
  match imgSrcs with
  | [] => ([], fs)
  | src :: rest =>
      let '(t1, fs) := entry env base outDir i src fs in
      let '(t2, fs) := loop env base outDir (S i) rest fs in
      (t1 ++ t2, fs)
  end.

(** ** [main.go]: [main] (lines 19-101) *)

Record Outcome : Type := {
  exit_code : nat;
  trace : list Event;
  final_fs : FS
}.

Definition main (env : Env) (pageURL outDir : string) (fs : FS) : Outcome :=
  if gostr.is_empty pageURL || gostr.is_empty outDir then
    {| exit_code := 1; trace := [Usage]; final_fs := fs |}
  else
    match os_MkdirAll env outDir with
    | Some err => {| exit_code := 1; trace := [Fatal_MkdirAll err]; final_fs := fs |}
    | None =>
        match url.Parse pageURL with
        | fail err => {| exit_code := 1; trace := [Fatal_PageURL err]; final_fs := fs |}
        | ok base =>
            let t0 := if gostr.is_empty (chromeProfileDir env) then [Log_NoProfileDir] else [] in
            match chromedp_Run env pageURL with
            | fail err =>
                {| exit_code := 1; trace := t0 ++ [Fatal_Chromedp err]; final_fs := fs |}
            | ok imgSrcs =>
                let '(t, fs) := loop env base outDir 0 imgSrcs fs in
                {| exit_code := 0; trace := t0 ++ t; final_fs := fs |}
            end
        end
    end.

(** * What the specification says, in its own words *)

(** The final path segment: the component after the last ['/']. *)
Definition final_segment (path : string) : string :=
  match strings.LastIndex path "/" with
  | Some i => gostr.drop (i + 1) path
  | None => path
  end.

(** The extension of a segment: the substring from its last ['.'], the
    dot included; empty when the segment has no dot. *)
Definition extension_of (segment : string) : string :=
  match strings.LastIndex segment "." with
  | Some i => gostr.drop i segment
  | None => ""
  end.

(** The extension helper of the specification: the extension of the final
    path segment if present and non-empty, the default otherwise. *)
Definition ext_spec (path : string) : string :=
  let e := extension_of (final_segment path) in
  if gostr.is_empty e then ".jpg" else e.

(** A path without its trailing slashes. *)
Fixpoint trim_trailing_slashes (path : string) : string :=
  match path with
  | EmptyString => EmptyString
  | String c t =>
      let t' := trim_trailing_slashes t in
      if Ascii.eqb c "/" && gostr.is_empty t' then EmptyString else String c t'
  end.

(** The synthesized name [image_<index+1><ext>]. *)
Definition synthesized_name (path : string) (index : nat) : string :=
  "image_" +:+ fmt_d (index + 1) +:+ getFileExtension path.

(** The Name Deriver as the specification words it: the final path segment,
    unless it is empty, ["/"] or ["."]. *)
Definition deriveName_spec (path : string) (index : nat) : string :=
  let segment := final_segment path in
  if String.eqb segment "" || String.eqb segment "/" || String.eqb segment "."
  then synthesized_name path index
  else segment.

(** The file name the loop of [main] hands to [downloadFile] for the entry
    [src] at [index], when the entry gets that far. *)
Definition entry_fileName (base : url.URL) (src : string) (index : nat) : option string :=
  match resolve base src with
  | Absolute imgURL => Some (deriveName (url.Path imgURL) index)
  | _ => None
  end.

(** [resolve] on strings: the page URL and the raw source in, the text of
    the absolute URL out. *)
Definition resolve_text (page raw : string) : option string :=
  match url.Parse page with
  | ok base =>
      match resolve base raw with
      | Absolute imgURL => Some (url.String_ imgURL)
      | _ => None
      end
  | fail _ => None
  end.

(** ** RFC 3986, section 5.2: the standard relative-reference resolution *)

Module rfc3986.
Import gostr.

Record Components : Type := {
  scheme : option string;
  authority : option string;
  path : string;
  query : option string;
  fragment : option string
}.

(** The longest prefix of [s] without a character of [stop], and the rest. *)
Fixpoint span (stop : string) (s : string) : string * string :=
  match s with
  | EmptyString => (EmptyString, EmptyString)
  | String c t =>
      if one_of stop c then (EmptyString, s)
      else let '(a, b) := span stop t in (String c a, b)
  end.

(** Appendix B: the components of a reference.  The scheme is a non-empty
    run without colon, slash, question mark or hash that a colon ends; the
    authority follows two slashes and runs to the next slash, question mark
    or hash; the path runs to the next question mark or hash; the query
    follows a question mark and runs to the next hash; the fragment follows
    a hash. *)
Definition parse (s : string) : Components :=
  let '(pre, rest) := span ":/?#" s in
  let '(scheme, s1) :=
    match rest with
    | String ":" t => if is_empty pre then (None, s) else (Some pre, t)
    | _ => (None, s)
    end in
  let '(authority, s2) :=
    if String.prefix "//" s1
    then let '(a, r) := span "/?#" (drop 2 s1) in (Some a, r)
    else (None, s1) in
  let '(path, s3) := span "?#" s2 in
  let '(query, s4) :=
    match s3 with
    | String "?" t => let '(q, r) := span "#" t in (Some q, r)
    | _ => (None, s3)
    end in
  let fragment := match s4 with String "#" t => Some t | _ => None end in
  {| scheme := scheme; authority := authority; path := path;
     query := query; fragment := fragment |}.

(** 5.2.4, step 2C: remove the last segment and its preceding ["/"] (if
    any) from the output buffer. *)
Definition remove_last_segment (output : string) : string :=
  match strings.LastIndex output "/" with
  | Some i => take i output
  | None => ""
  end.

(** 5.2.4, step 2E: the first path segment of the input buffer, including
    the initial ["/"] (if any) and the characters up to, but not including,
    the next ["/"]; and the rest of the buffer. *)
Definition first_segment (input : string) : string * string :=
  match input with
  | String "/" t => let '(a, b) := span "/" t in (String "/" a, b)
  | _ => span "/" input
  end.

(** 5.2.4: the loop over the input buffer.  Every pass shortens the input
    buffer, so as many passes as it has characters empty it. *)
Fixpoint remove_dot_segments_loop (fuel : nat) (input output : string) : string :=
  match fuel with
  | 0 => output
  | S fuel =>
      if is_empty input then output
      (* A *)
      else if String.prefix "../" input then remove_dot_segments_loop fuel (drop 3 input) output
      else if String.prefix "./" input then remove_dot_segments_loop fuel (drop 2 input) output
      (* B *)
      else if String.prefix "/./" input
      then remove_dot_segments_loop fuel ("/" +:+ drop 3 input) output
      else if String.eqb input "/." then remove_dot_segments_loop fuel "/" output
      (* C *)
      else if String.prefix "/../" input
      then remove_dot_segments_loop fuel ("/" +:+ drop 4 input) (remove_last_segment output)
      else if String.eqb input "/.."
      then remove_dot_segments_loop fuel "/" (remove_last_segment output)
      (* D *)
      else if String.eqb input "." || String.eqb input ".."
      then remove_dot_segments_loop fuel "" output
      (* E *)
      else let '(seg, rest) := first_segment input in
           remove_dot_segments_loop fuel rest (output +:+ seg)
  end.

Definition remove_dot_segments (p : string) : string :=
  remove_dot_segments_loop (len p) p "".

(** 5.2.3: merge a relative-path reference with the path of the base. *)
Definition merge (base_has_authority : bool) (base_path ref_path : string) : string :=
  if base_has_authority && is_empty base_path then "/" +:+ ref_path
  else match strings.LastIndex base_path "/" with
       | Some i => take (i + 1) base_path +:+ ref_path
       | None => ref_path
       end.

(** 5.2.2: the path of the target for a reference that has no scheme and
    no authority. *)
Definition target_path (base_has_authority : bool) (base_path ref_path : string) : string :=
  if is_empty ref_path then base_path
  else if String.prefix "/" ref_path then remove_dot_segments ref_path
  else remove_dot_segments (merge base_has_authority base_path ref_path).

Definition defined {A} (o : option A) : bool :=
  match o with Some _ => true | None => false end.

(** 5.2.2: transform the reference [R] into its target, against [Base]. *)
Definition transform (Base R : Components) : Components :=
  if defined (scheme R) then
    {| scheme := scheme R; authority := authority R;
       path := remove_dot_segments (path R); query := query R;
       fragment := fragment R |}
  else if defined (authority R) then
    {| scheme := scheme Base; authority := authority R;
       path := remove_dot_segments (path R); query := query R;
       fragment := fragment R |}
  else
    {| scheme := scheme Base; authority := authority Base;
       path := target_path (defined (authority Base)) (path Base) (path R);
       query := if is_empty (path R) && negb (defined (query R))
                then query Base else query R;
       fragment := fragment R |}.

(** 5.3: recompose the components into a string. *)
Definition recompose (T : Components) : string :=
  (match scheme T with Some s => s +:+ ":" | None => "" end)
  +:+ (match authority T with Some a => "//" +:+ a | None => "" end)
  +:+ path T
  +:+ (match query T with Some q => "?" +:+ q | None => "" end)
  +:+ (match fragment T with Some f => "#" +:+ f | None => "" end).

(** The target of the reference [raw] against the base [base]. *)
Definition resolve (base raw : string) : string :=
  recompose (transform (parse base) (parse raw)).

End rfc3986.

(** * Paths as lists of elements *)

(** The elements of a path: the pieces between its slashes, in order
    (what [strings.Split(path, "/")] returns, and what repeated
    [strings.Cut(remaining, "/")] yields one after the other). *)
Fixpoint elements (path : string) : list string :=
  match path with
  | EmptyString => [EmptyString]
  | String c t =>
      if Ascii.eqb c "/" then EmptyString :: elements t
      else match elements t with
           | e :: es => String c e :: es
           | [] => [String c EmptyString]
           end
  end.

(** The path with these elements: [strings.Join(elems, "/")]. *)
Fixpoint join_elements (elems : list string) : string :=
  match elems with
  | [] => EmptyString
  | [e] => e
  | e :: es => e +:+ "/" +:+ join_elements es
  end.

(** No slash in the string. *)
Fixpoint slash_free (s : string) : bool :=
  match s with
  | EmptyString => true
  | String c t => negb (Ascii.eqb c "/") && slash_free t
  end.

(** The passes of the loop of [resolvePath] over a list of elements. *)
Definition resolvePath_passes (elems : list string) (st : string * bool) : string * bool :=
  fold_left (fun st elem => url.resolvePath_step st.1 st.2 elem) elems st.

(** The end of [resolvePath], after the loop: the slash after a last dot
    element, and the doubled first slash removed. *)
Definition resolvePath_finish (dst elem : string) : string :=
  let dst :=
    if String.eqb elem "." || String.eqb elem ".." then dst +:+ "/" else dst in
  if (1 <? gostr.len dst) && bool_decide (gostr.at_ 1 dst = Some "/"%char)
  then gostr.drop 1 dst else dst.

(** [resolvePath] after the choice of the full path. *)
Definition resolvePath_of_full (full : string) : string :=
  if gostr.is_empty full then ""
  else resolvePath_finish (resolvePath_passes (elements full) ("/", true)).1
                          (List.last (elements full) "").

(** One pass of the loop of RFC 3986, 5.2.4, seen from the output buffer:
    what the element [elem], met after a slash, does to it. *)
Definition rfc3986_pass (output elem : string) : string :=
  if String.eqb elem "." then output
  else if String.eqb elem ".." then rfc3986.remove_last_segment output
  else output +:+ "/" +:+ elem.

Definition rfc3986_passes (elems : list string) (output : string) : string :=
  fold_left rfc3986_pass elems output.

(** Is the element a dot segment? *)
Definition is_dot_segment (elem : string) : bool :=
  String.eqb elem "." || String.eqb elem "..".

(** The builder and flag of [resolvePath] against the output buffer of
    RFC 3986 after the same elements: the builder is at the root with
    nothing to pop; or it holds the buffer after the slash written at the
    start; or, once a double dot has emptied it, it holds the buffer
    itself. *)
Definition buffers_agree (dst : string) (first : bool) (output : string) : Prop :=
  (first = true /\ dst = "/" /\ output = "")
  \/ (first = false /\ dst = String "/" output
      /\ (output = "" \/ exists y, output = String "/" y))
  \/ (first = false /\ dst = output
      /\ exists a y, output = String "/" (String a y) /\ a <> "/"%char).

(** The same at the end of the loop, where the last element may be
    empty. *)
Definition buffers_agree_at_end (dst output : string) : Prop :=
  (dst = String "/" output /\ exists y, output = String "/" y)
  \/ (dst = output
      /\ (output = "/" \/ exists a y, output = String "/" (String a y) /\ a <> "/"%char)).

(** * The sentences of the specification that the code does not bear out,
      as they are written *)

(** "For every URL served with HTTP status 200, download returns no error
    and leaves at destDir/fileName a file whose bytes are the body." *)
Definition download_succeeds_on_every_200 : Prop :=
  forall (env : Env) (urlStr outDir fileName : string) (fs : FS) (resp : http.Response),
    http_Get env urlStr = ok resp ->
    http.StatusCode resp = http.StatusOK ->
    (downloadFile env urlStr outDir fileName fs).1 = None
    /\ (downloadFile env urlStr outDir fileName fs).2 !! filepath.Join outDir fileName
       = Some (http.Body resp).

(** "deriveName returns the component after the last ['/'] unless it is
    empty, ["/"] or ["."], and the synthesized name otherwise." *)
Definition deriveName_is_final_segment : Prop :=
  forall (path : string) (index : nat), deriveName path index = deriveName_spec path index.

(** "resolve(base, raw) is the target of the standard algorithm, for every
    valid base and every valid relative raw." *)
Definition resolve_is_rfc3986_on_relative : Prop :=
  forall (page raw : string) (base ref : url.URL),
    url.Parse page = ok base -> url.Scheme base <> "" ->
    raw <> "" -> url.Parse raw = ok ref -> url.Scheme ref = "" ->
    resolve_text page raw = Some (rfc3986.resolve page raw).

(** "resolve returns a valid absolute raw unchanged." *)
Definition resolve_keeps_absolute_unchanged : Prop :=
  forall (page raw : string) (base ref : url.URL),
    url.Parse page = ok base ->
    url.Parse raw = ok ref -> url.Scheme ref <> "" ->
    resolve_text page raw = Some raw.

(** The URL that [ResolveReference] hands to [setPath] for a reference
    without scheme and authority: the reference with the scheme, the user
    and the host of the base. *)
Definition inherit_authority (base ref : url.URL) : url.URL :=
  {| url.Scheme := url.Scheme base; url.Opaque := url.Opaque ref;
     url.User := url.User base; url.Host := url.Host base;
     url.Path := url.Path ref; url.RawPath := url.RawPath ref;
     url.OmitHost := url.OmitHost ref; url.ForceQuery := url.ForceQuery ref;
     url.RawQuery := url.RawQuery ref; url.Fragment := url.Fragment ref;
     url.RawFragment := url.RawFragment ref |}.

(** Does the URL have an authority component? *)
Definition has_authority (u : url.URL) : bool :=
  negb (gostr.is_empty (url.Host u)) || url.has_user u.

(** The builder of [resolvePath] always starts with the slash written
    first, and holds nothing else while the flag [first] is set. *)
Definition builder_rooted (st : string * bool) : Prop :=
  exists d, st.1 = String "/" d /\ (st.2 = true -> d = "").

(** * A sample world *)

Definition png_response : http.Response :=
  {| http.StatusCode := 200; http.Status := "200 OK"; http.Body := "PNG-bytes" |}.

Definition jpg_response : http.Response :=
  {| http.StatusCode := 200; http.Status := "200 OK"; http.Body := "JPG-bytes" |}.

Definition missing_response : http.Response :=
  {| http.StatusCode := 404; http.Status := "404 Not Found"; http.Body := "no such image" |}.

(** A page at [https://site.test/page] with five [img] elements; the
    current directory is a directory, so no file can be created at ["."]. *)
Definition sample_env : Env :=
  {| os_MkdirAll := fun _ => None;
     chromeProfileDir := "/home/user/.config/google-chrome/Default";
     chromedp_Run := fun _ =>
       ok ["/a.png"; ""; "%zz"; "http://other.test/missing.jpg"; "http://other.test/b.jpg"];
     http_Get := fun u =>
       if String.eqb u "https://site.test/a.png" then ok png_response
       else if String.eqb u "http://other.test/b.jpg" then ok jpg_response
       else if String.eqb u "http://other.test/missing.jpg" then ok missing_response
       else if String.eqb u "https://site.test/x/%2e%2e" then ok png_response
       else fail (LibraryError "dial tcp: lookup failed: no such host");
     os_Create_error := fun p =>
       if String.eqb p "." then Some (LibraryError "open .: is a directory") else None;
     io_Copy_error := fun _ => None |}.

Definition sample_page : string := "https://site.test/page".

(** [url.Parse] of [https://ex.com/a/b] and of [https://ex.com/a]. *)
Definition ex_com (path : string) : url.URL :=
  {| url.Scheme := "https"; url.Opaque := ""; url.User := None;
     url.Host := "ex.com"; url.Path := path; url.RawPath := "";
     url.OmitHost := false; url.ForceQuery := false; url.RawQuery := "";
     url.Fragment := ""; url.RawFragment := "" |}.

(** [url.Parse] of a reference that is a path and nothing else. *)
Definition path_only (path : string) : url.URL :=
  {| url.Scheme := ""; url.Opaque := ""; url.User := None;
     url.Host := ""; url.Path := path; url.RawPath := "";
     url.OmitHost := false; url.ForceQuery := false; url.RawQuery := "";
     url.Fragment := ""; url.RawFragment := "" |}.

(** [url.Parse] of [http://other.test/b.jpg]. *)
Definition other_test (path : string) : url.URL :=
  {| url.Scheme := "http"; url.Opaque := ""; url.User := None;
     url.Host := "other.test"; url.Path := path; url.RawPath := "";
     url.OmitHost := false; url.ForceQuery := false; url.RawQuery := "";
     url.Fragment := ""; url.RawFragment := "" |}.

(** [url.Parse] of the sample page. *)
Definition sample_base : url.URL :=
  {| url.Scheme := "https"; url.Opaque := ""; url.User := None;
     url.Host := "site.test"; url.Path := "/page"; url.RawPath := "";
     url.OmitHost := false; url.ForceQuery := false; url.RawQuery := "";
     url.Fragment := ""; url.RawFragment := "" |}.

(** The examples of RFC 3986, 5.4, against the base [http://a/b/c/d;p?q]:
    the reference and its target. *)
Definition rfc3986_examples : list (string * string) :=
  [ ("g:h", "g:h"); ("g", "http://a/b/c/g"); ("./g", "http://a/b/c/g");
    ("g/", "http://a/b/c/g/"); ("/g", "http://a/g"); ("//g", "http://g");
    ("?y", "http://a/b/c/d;p?y"); ("g?y", "http://a/b/c/g?y");
    ("#s", "http://a/b/c/d;p?q#s"); ("g#s", "http://a/b/c/g#s");
    ("g?y#s", "http://a/b/c/g?y#s"); (";x", "http://a/b/c/;x");
    ("g;x", "http://a/b/c/g;x"); ("g;x?y#s", "http://a/b/c/g;x?y#s");
    (".", "http://a/b/c/"); ("./", "http://a/b/c/"); ("..", "http://a/b/");
    ("../", "http://a/b/"); ("../g", "http://a/b/g"); ("../..", "http://a/");
    ("../../", "http://a/"); ("../../g", "http://a/g");
    ("../../../g", "http://a/g"); ("../../../../g", "http://a/g");
    ("/./g", "http://a/g"); ("/../g", "http://a/g"); ("g.", "http://a/b/c/g.");
    (".g", "http://a/b/c/.g"); ("g..", "http://a/b/c/g.."); ("..g", "http://a/b/c/..g");
    ("./../g", "http://a/b/g"); ("./g/.", "http://a/b/c/g/");
    ("g/./h", "http://a/b/c/g/h"); ("g/../h", "http://a/b/c/h");
    ("g;x=1/./y", "http://a/b/c/g;x=1/y"); ("g;x=1/../y", "http://a/b/c/y");
    ("g?y/./x", "http://a/b/c/g?y/./x"); ("g?y/../x", "http://a/b/c/g?y/../x");
    ("g#s/./x", "http://a/b/c/g#s/./x"); ("g#s/../x", "http://a/b/c/g#s/../x") ].

(** * The rest of [main.go], and notions to state what it does *)

(** [strings.Join(elems, sep)] *)
Fixpoint strings_Join (elems : list string) (sep : string) : string :=
  match elems with
  | [] => ""
  | [e] => e
  | e :: es => e +:+ sep +:+ strings_Join es sep
  end.

(** [filepath.Join(elem...)] (POSIX build) on any number of elements:
    [for i, e := range elem { if e != "" { return Clean(strings.Join(elem[i:], "/")) } }
     return ""]. *)
Fixpoint filepath_Join_all (elem : list string) : string :=
  match elem with
  | [] => ""
  | e :: rest =>
      if gostr.is_empty e then filepath_Join_all rest
      else filepath.Clean (strings_Join elem "/")
  end.

(** What [getChromeProfileDir] reads from the machine: the answer of
    [os.UserHomeDir()], the constant [runtime.GOOS], the environment
    variable [LOCALAPPDATA], and the [filepath.Join] of the build. *)
Record Machine : Type := {
  os_UserHomeDir : res error string;
  runtime_GOOS : string;
  LOCALAPPDATA : string;
  filepath_Join : list string -> string
}.

(** [getChromeProfileDir] (main.go, lines 135-159): the error it logs, if
    any (line 138), and the directory it returns. *)
Definition getChromeProfileDir (m : Machine) : option error * string :=
  match os_UserHomeDir m with
  | fail err => (Some err, "")
  | ok home =>
      (None,
       if String.eqb (runtime_GOOS m) "windows" then
         let localAppData := LOCALAPPDATA m in
         if gostr.is_empty localAppData then ""
         else filepath_Join m [localAppData; "Google"; "Chrome"; "User Data"; "Default"]
       else if String.eqb (runtime_GOOS m) "darwin" then
         filepath_Join m [home; "Library"; "Application Support"; "Google"; "Chrome"; "Default"]
       else if String.eqb (runtime_GOOS m) "linux" then
         filepath_Join m [home; ".config"; "google-chrome"; "Default"]
       else "")
  end.

(** The events of a kind in a trace. *)
Fixpoint count_events (kind : Event -> bool) (t : list Event) : nat :=
  match t with
  | [] => 0
  | e :: t => (if kind e then 1 else 0) + count_events kind t
  end.

Definition is_Stdout (e : Event) : bool :=
  match e with Stdout _ => true | _ => false end.
Definition is_Request (e : Event) : bool :=
  match e with Request _ => true | _ => false end.
Definition is_Log_SrcParse (e : Event) : bool :=
  match e with Log_SrcParse _ _ => true | _ => false end.
Definition is_Log_Download (e : Event) : bool :=
  match e with Log_Download _ _ => true | _ => false end.

(** The sources of a list that resolve, and those that do not parse. *)
Fixpoint count_resolved (base : url.URL) (imgSrcs : list string) : nat :=
  match imgSrcs with
  | [] => 0
  | src :: rest =>
      (match resolve base src with Absolute _ => 1 | _ => 0 end)
      + count_resolved base rest
  end.

Fixpoint count_unparsable (base : url.URL) (imgSrcs : list string) : nat :=
  match imgSrcs with
  | [] => 0
  | src :: rest =>
      (match resolve base src with Unparsable _ => 1 | _ => 0 end)
      + count_unparsable base rest
  end.

(** The paths the loop hands to [os.Create], at most: the joined path of
    every entry that resolves, from index [i] on. *)
Fixpoint targets (base : url.URL) (outDir : string) (i : nat) (imgSrcs : list string)
  : list string :=
  match imgSrcs with
  | [] => []
  | src :: rest =>
      match resolve base src with
      | Absolute imgURL => [filepath.Join outDir (deriveName (url.Path imgURL) i)]
      | _ => []
      end ++ targets base outDir (S i) rest
  end.

(** A path none of whose elements is a dot segment. *)
Definition no_dot_elements (path : string) : Prop :=
  Forall (fun e => is_dot_segment e = false) (elements path).

(** A path element that [filepath.Clean] keeps as it is: not empty, not a
    dot segment, without slash. *)
Definition plain_element (e : string) : bool :=
  slash_free e && negb (gostr.is_empty e) && negb (is_dot_segment e).

(** A directory path written without detour: plain elements joined by
    single slashes, after a leading slash or not ([out], [/tmp/out]). *)
Definition plain_path (p : string) : Prop :=
  Forall (fun e => plain_element e = true)
         (elements (if String.prefix "/" p then gostr.drop 1 p else p)).

(** Does the default branch of [Clean] write a slash before the element? *)
Definition Clean_needs_slash (rooted : bool) (out : string) : bool :=
  rooted && negb (gostr.len out =? 1) || negb rooted && negb (gostr.len out =? 0).

(** The builder of [resolvePath] holds no dot segment. *)
Definition builder_clean (st : string * bool) : Prop :=
  exists d, st.1 = String "/" d /\ no_dot_elements d /\ (st.2 = true -> d = "").

(** A machine with a home directory, on Linux. *)
Definition linux_machine : Machine :=
  {| os_UserHomeDir := ok "/home/user"; runtime_GOOS := "linux";
     LOCALAPPDATA := ""; filepath_Join := filepath_Join_all |}.

(** A machine where the home directory cannot be determined. *)
Definition homeless_machine : Machine :=
  {| os_UserHomeDir := fail (LibraryError "$HOME is not defined");
     runtime_GOOS := "linux"; LOCALAPPDATA := ""; filepath_Join := filepath_Join_all |}.

(** The sample world on a machine without home directory. *)
Definition homeless_env : Env :=
  {| os_MkdirAll := os_MkdirAll sample_env;
     chromeProfileDir := (getChromeProfileDir homeless_machine).2;
     chromedp_Run := chromedp_Run sample_env;
     http_Get := http_Get sample_env;
     os_Create_error := os_Create_error sample_env;
     io_Copy_error := io_Copy_error sample_env |}.

(** A world where the copy into [out/a.png] breaks off after three bytes. *)
Definition broken_copy_env : Env :=
  {| os_MkdirAll := os_MkdirAll sample_env;
     chromeProfileDir := chromeProfileDir sample_env;
     chromedp_Run := chromedp_Run sample_env;
     http_Get := http_Get sample_env;
     os_Create_error := os_Create_error sample_env;
     io_Copy_error := fun p =>
       if String.eqb p "out/a.png"
       then Some (3, LibraryError "read tcp: connection reset by peer") else None |}.

(** * Checks of the model on concrete inputs *)

(** [filepath.Base], [filepath.Ext], [filepath.Clean] and [filepath.Join]
    on the inputs of the library's own test tables. *)
Example Base_table :
  map filepath.Base [""; "."; "/."; "/"; "////"; "x/"; "abc"; "abc/def"; "a/b/.x";
                     "a/b/c."; "a/b/c.x"; "/weird/path/"]
  = ["."; "."; "."; "/"; "/"; "x"; "abc"; "def"; ".x"; "c."; "c.x"; "path"].
Proof. reflexivity. Qed.

Example Ext_table :
  map filepath.Ext ["path.go"; "path.pb.go"; "a.dir/b"; "a.dir/b.go"; "a.dir/"]
  = [".go"; ".go"; ""; ".go"; ""].
Proof. reflexivity. Qed.

Example Clean_table :
  map filepath.Clean
    ["abc"; "abc/def"; "."; ".."; "../../abc"; "/abc"; "/"; ""; "abc/"; "a/b/c/";
     "abc//def//ghi"; "//abc"; "abc/./def"; "abc/def/ghi/../jkl"; "abc/def/../..";
     "/abc/def/../../.."; "abc/def/../../../ghi/jkl/../../../mno"; "/../abc";
     "abc/../../././../def"]
  = ["abc"; "abc/def"; "."; ".."; "../../abc"; "/abc"; "/"; "."; "abc"; "a/b/c";
     "abc/def/ghi"; "/abc"; "abc/def"; "abc/def/jkl"; ".";
     "/"; "../../mno"; "/abc"; "../../def"].
Proof. vm_compute. reflexivity. Qed.

Example Join_table :
  (filepath.Join "out" "a.png", filepath.Join "/tmp/out/" "image_1.jpg",
   filepath.Join "out" "..", filepath.Join "" "a.png")
  = ("out/a.png", "/tmp/out/image_1.jpg", ".", "a.png").
Proof. vm_compute. reflexivity. Qed.

(** The extension helper and the file name. *)
Example getFileExtension_table :
  map getFileExtension ["/a/photo.PNG"; "/a.b/photo"; "/a/b.tar.gz"; "/a/b."; "/a.d/"; ""]
  = [".PNG"; ".jpg"; ".gz"; "."; ".jpg"; ".jpg"].
Proof. reflexivity. Qed.

Example deriveName_table :
  (deriveName "/a.png" 0, deriveName "/" 0, deriveName "" 2, deriveName "/a/b.gif/." 11,
   deriveName "/weird/path/" 0)
  = ("a.png", "image_1.jpg", "image_3.jpg", "image_12.", "path").
Proof. vm_compute. reflexivity. Qed.

(** [url.Parse] and [URL.String]. *)
Example Parse_sample_page : url.Parse sample_page = ok sample_base.
Proof. reflexivity. Qed.

Example Parse_table :
  map (fun raw => match url.Parse raw with ok u => Some (url.String_ u) | fail _ => None end)
    ["http://www.google.com/file%20one%26two"; "HTTP://u:p@h:8080/a%2fb?q=1#f g";
     "mailto:webmaster@golang.org"; "///threeslashes"; "http://[fe80::1%25en0]:8080/";
     "a b.png"; "%zz"; "http://a b/"; "1a:b"; "http://h:x/"]
  = [Some "http://www.google.com/file%20one%26two"; Some "http://u:p@h:8080/a%2fb?q=1#f%20g";
     Some "mailto:webmaster@golang.org"; Some "///threeslashes";
     Some "http://[fe80::1%25en0]:8080/";
     Some "a%20b.png"; None; None; None; None].
Proof. vm_compute. reflexivity. Qed.

(** [resolve] on the examples of RFC 3986, 5.4: the library and the RFC
    agree on each of them. *)
Example resolve_on_rfc3986_examples :
  Forall (fun '(raw, target) =>
            resolve_text "http://a/b/c/d;p?q" raw = Some target
            /\ rfc3986.resolve "http://a/b/c/d;p?q" raw = target)
         rfc3986_examples.
Proof. repeat constructor. Qed.

(** Where the library and the RFC part. *)
Example resolve_dotdot_then_empty_element :
  resolve_text "https://ex.com/a" "..//x.png" = Some "https://ex.com/x.png"
  /\ rfc3986.resolve "https://ex.com/a" "..//x.png" = "https://ex.com//x.png".
Proof. split; reflexivity. Qed.

Example resolve_absolute_with_dot_segments :
  resolve_text sample_page "http://other.test/a/../b.jpg" = Some "http://other.test/b.jpg"
  /\ resolve_text sample_page "http://other.test/b.jpg" = Some "http://other.test/b.jpg".
Proof. split; reflexivity. Qed.

(** The scenario of the specification: three [img] elements, the second
    without [src]. *)
Example scenario_three_images :
  loop sample_env sample_base "out" 0 ["/a.png"; ""; "http://other.test/b.jpg"] ∅
  = ([ Stdout ("Image 1: https://site.test/a.png" +:+ String "010" "");
       Request "https://site.test/a.png";
       Stdout ("Image 3: http://other.test/b.jpg" +:+ String "010" "");
       Request "http://other.test/b.jpg" ],
     {[ "out/a.png" := "PNG-bytes"; "out/b.jpg" := "JPG-bytes" ]}).
Proof. vm_compute. reflexivity. Qed.

(** * Byte strings: lemmas on indexing, slicing and appending *)

Section ByteStrings.
Import gostr.

Local Ltac lens := unfold len in *; cbn [String.length] in *.

Lemma sapp_nil_l (s : string) : "" +:+ s = s.
Proof. reflexivity. Qed.

Lemma sapp_cons (c : ascii) (s t : string) : String c s +:+ t = String c (s +:+ t).
Proof. reflexivity. Qed.

Lemma sapp_nil_r (s : string) : s +:+ "" = s.
Proof. induction s as [|c s IH]; [done|]. by rewrite sapp_cons, IH. Qed.

Lemma sapp_assoc (s t u : string) : (s +:+ t) +:+ u = s +:+ (t +:+ u).
Proof. induction s as [|c s IH]; [done|]. by rewrite !sapp_cons, IH. Qed.

Lemma len_app (s t : string) : len (s +:+ t) = len s + len t.
Proof. induction s as [|c s IH]; [done|]. rewrite sapp_cons. unfold len in *. cbn. by rewrite IH. Qed.

Lemma len_snoc (s : string) (c : ascii) : len (s +:+ String c "") = S (len s).
Proof. rewrite len_app. cbn. lia. Qed.

Lemma is_empty_true (s : string) : is_empty s = true <-> s = "".
Proof. by destruct s. Qed.

Lemma is_empty_false (s : string) : is_empty s = false <-> s <> "".
Proof. by destruct s. Qed.

Lemma is_empty_snoc (s : string) (c : ascii) : is_empty (s +:+ String c "") = false.
Proof. by destruct s. Qed.

Lemma is_empty_app (s t : string) : is_empty (s +:+ t) = is_empty s && is_empty t.
Proof. by destruct s. Qed.

Lemma snoc_inj (s t : string) (c d : ascii) :
  s +:+ String c "" = t +:+ String d "" -> s = t /\ c = d.
Proof.
  revert t. induction s as [|a s IH]; intros [|b t] H; rewrite ?sapp_cons, ?sapp_nil_l in H.
  - by inversion H.
  - inversion H as [[H1 H2]]. by destruct t.
  - inversion H as [[H1 H2]]. by destruct s.
  - inversion H as [[H1 H2]]. destruct (IH _ H2) as [-> ->]. done.
Qed.

(** Every string is empty or ends in a last byte. *)
Lemma snoc_cases (s : string) : s = "" \/ exists t c, s = t +:+ String c "".
Proof.
  induction s as [|a s IH]; [by left | right].
  destruct IH as [-> | (t & c & ->)].
  - by exists "", a.
  - by exists (String a t), c.
Qed.

(** Induction from the last byte. *)
Lemma snoc_ind (P : string -> Prop) :
  P "" -> (forall s c, P s -> P (s +:+ String c "")) -> forall s, P s.
Proof.
  intros H0 HS s.
  assert (H : forall n s, len s = n -> P s).
  { clear s. induction n as [|n IH]; intros s Hn.
    - by destruct s.
    - destruct (snoc_cases s) as [-> | (t & c & ->)]; [done|].
      apply HS, IH. rewrite len_snoc in Hn. lia. }
  by apply (H (len s)).
Qed.

Lemma at_app_l (s t : string) (i : nat) : i < len s -> at_ i (s +:+ t) = at_ i s.
Proof.
  revert i. induction s as [|c s IH]; intros i Hi; lens; [lia|].
  rewrite sapp_cons. destruct i as [|i]; [done|]. cbn. apply IH. lia.
Qed.

Lemma at_app_len (s t : string) (c : ascii) : at_ (len s) (s +:+ String c t) = Some c.
Proof. induction s as [|a s IH]; [done|]. rewrite sapp_cons. lens. cbn. apply IH. Qed.

Lemma take_app_len (s t : string) : take (len s) (s +:+ t) = s.
Proof. induction s as [|a s IH]; [by destruct t|]. rewrite sapp_cons. lens. cbn. by rewrite IH. Qed.

Lemma drop_app_len (s t : string) : drop (len s) (s +:+ t) = t.
Proof. induction s as [|a s IH]; [done|]. rewrite sapp_cons. lens. cbn. by rewrite IH. Qed.

Lemma take_app_le (s t : string) (i : nat) : i <= len s -> take i (s +:+ t) = take i s.
Proof.
  revert i. induction s as [|c s IH]; intros i Hi; lens.
  - assert (i = 0) as -> by lia. done.
  - destruct i as [|i]; [done|]. rewrite sapp_cons. cbn. rewrite IH; [done | lia].
Qed.

Lemma drop_app_le (s t : string) (i : nat) : i <= len s -> drop i (s +:+ t) = drop i s +:+ t.
Proof.
  revert i. induction s as [|c s IH]; intros i Hi; lens.
  - assert (i = 0) as -> by lia. done.
  - destruct i as [|i]; [done|]. rewrite sapp_cons. cbn. apply IH. lia.
Qed.

Lemma drop_nonempty (s : string) (i : nat) : i < len s -> is_empty (drop i s) = false.
Proof.
  revert i. induction s as [|c s IH]; intros i Hi; lens; [lia|].
  destruct i as [|i]; [done|]. cbn. apply IH. lia.
Qed.

Lemma take_drop (s : string) (i : nat) : take i s +:+ drop i s = s.
Proof.
  revert i. induction s as [|c s IH]; intros [|i]; try done.
  cbn. by rewrite sapp_cons, IH.
Qed.

Lemma len_take (s : string) (i : nat) : i <= len s -> len (take i s) = i.
Proof.
  revert i. induction s as [|c s IH]; intros i Hi; lens.
  - by assert (i = 0) as -> by lia.
  - destruct i as [|i]; [done|]. cbn. rewrite IH; [done | lia].
Qed.

Lemma prefix1 (a b : ascii) (t : string) : String.prefix (String a "") (String b t) = Ascii.eqb a b.
Proof.
  cbn. destruct (ascii_dec a b) as [->|Hne].
  - rewrite Ascii.eqb_refl. by destruct t.
  - symmetry. by apply Ascii.eqb_neq.
Qed.

Lemma ascii_eqb_sym (a b : ascii) : Ascii.eqb a b = Ascii.eqb b a.
Proof.
  destruct (Ascii.eqb_spec a b) as [->|Hne]; [by rewrite Ascii.eqb_refl|].
  symmetry. apply Ascii.eqb_neq. congruence.
Qed.

(** [strings.LastIndex] of a one-byte string is below the length. *)
Lemma LastIndex1_lt (s : string) (ch : ascii) (i : nat) :
  strings.LastIndex s (String ch "") = Some i -> i < len s.
Proof.
  revert i. induction s as [|a s IH]; intros i H; cbn [strings.LastIndex] in H.
  - done.
  - destruct (strings.LastIndex s (String ch "")) as [j|].
    + inversion H; subst. specialize (IH j eq_refl). lens. lia.
    + destruct (String.prefix _ _); inversion H. lens. lia.
Qed.

(** [strings.LastIndex] of a one-byte string, from the last byte. *)
Lemma LastIndex1_snoc (s : string) (c ch : ascii) :
  strings.LastIndex (s +:+ String c "") (String ch "")
  = if Ascii.eqb c ch then Some (len s) else strings.LastIndex s (String ch "").
Proof.
  induction s as [|a s IH].
  - rewrite sapp_nil_l. cbn [strings.LastIndex]. rewrite prefix1.
    cbn. rewrite (ascii_eqb_sym ch c). by destruct (Ascii.eqb c ch).
  - rewrite sapp_cons. cbn [strings.LastIndex]. rewrite IH.
    destruct (Ascii.eqb c ch); [done|].
    destruct (strings.LastIndex s (String ch "")); [done|].
    by rewrite !prefix1.
Qed.

End ByteStrings.

(** * The Fetcher: [downloadFile] *)

Section Fetcher.
Context (env : Env).

Lemma downloadFile_transport_error urlStr outDir fileName fs err :
  http_Get env urlStr = fail err ->
  downloadFile env urlStr outDir fileName fs = (Some err, fs).
Proof. intros H. unfold downloadFile. by rewrite H. Qed.

Lemma downloadFile_not_ok urlStr outDir fileName fs resp :
  http_Get env urlStr = ok resp ->
  http.StatusCode resp <> http.StatusOK ->
  downloadFile env urlStr outDir fileName fs = (Some (StatusNotOK (http.Status resp)), fs).
Proof.
  intros Hget Hst. unfold downloadFile. rewrite Hget.
  destruct (Nat.eqb_spec (http.StatusCode resp) http.StatusOK); [contradiction | reflexivity].
Qed.

Lemma downloadFile_ok urlStr outDir fileName fs resp :
  http_Get env urlStr = ok resp ->
  http.StatusCode resp = http.StatusOK ->
  downloadFile env urlStr outDir fileName fs =
    let filePath := filepath.Join outDir fileName in
    match os_Create_error env filePath with
    | Some err => (Some err, fs)
    | None =>
        match io_Copy_error env filePath with
        | Some (n, err) => (Some err, <[filePath := gostr.take n (http.Body resp)]> fs)
        | None => (None, <[filePath := http.Body resp]> fs)
        end
    end.
Proof.
  intros Hget Hst. unfold downloadFile. rewrite Hget, Hst. reflexivity.
Qed.

End Fetcher.

(** * The loop of [main] *)

Section Loop.
Context (env : Env) (base : url.URL) (outDir : string).

Lemma loop_app (l1 l2 : list string) (i : nat) (fs : FS) :
  loop env base outDir i (l1 ++ l2) fs =
    let '(t1, fs1) := loop env base outDir i l1 fs in
    let '(t2, fs2) := loop env base outDir (i + length l1) l2 fs1 in
    (t1 ++ t2, fs2).
Proof.
  revert i fs. induction l1 as [|src l1 IH]; intros i fs; simpl.
  - rewrite Nat.add_0_r. by destruct (loop env base outDir i l2 fs).
  - destruct (entry env base outDir i src fs) as [te fs1].
    rewrite IH. destruct (loop env base outDir (S i) l1 fs1) as [t1 fs2].
    replace (i + S (length l1)) with (S i + length l1) by lia.
    destruct (loop env base outDir (S i + length l1) l2 fs2) as [t2 fs3].
    by rewrite app_assoc.
Qed.

Lemma loop_cons src rest i fs :
  loop env base outDir i (src :: rest) fs =
    let '(t1, fs1) := entry env base outDir i src fs in
    let '(t2, fs2) := loop env base outDir (S i) rest fs1 in
    (t1 ++ t2, fs2).
Proof. reflexivity. Qed.

Lemma entry_unparsable i src fs e :
  resolve base src = Unparsable e ->
  entry env base outDir i src fs = ([Log_SrcParse src e], fs).
Proof. intros H. unfold entry. by rewrite H. Qed.

Lemma entry_download_failed i src fs imgURL err fs' :
  resolve base src = Absolute imgURL ->
  downloadFile env (url.String_ imgURL) outDir (deriveName (url.Path imgURL) i) fs
    = (Some err, fs') ->
  entry env base outDir i src fs =
    ([Stdout (image_line i imgURL); Request (url.String_ imgURL);
      Log_Download (url.String_ imgURL) err], fs').
Proof. intros H1 H2. unfold entry. by rewrite H1, H2. Qed.

(** What a pass prints, requests and logs does not depend on the files
    that are there. *)
Lemma entry_trace_any_fs i src fs fs' :
  (entry env base outDir i src fs).1 = (entry env base outDir i src fs').1.
Proof.
  unfold entry, downloadFile. destruct (resolve base src); try done.
  destruct (http_Get env _); [|done].
  destruct (negb _); [done|].
  destruct (os_Create_error env _); [done|].
  by destruct (io_Copy_error env _) as [[? ?]|].
Qed.

Lemma loop_trace_any_fs imgSrcs i fs fs' :
  (loop env base outDir i imgSrcs fs).1 = (loop env base outDir i imgSrcs fs').1.
Proof.
  revert i fs fs'. induction imgSrcs as [|src rest IH]; intros i fs fs'; [done|].
  cbn [loop]. pose proof (entry_trace_any_fs i src fs fs') as He.
  destruct (entry env base outDir i src fs) as [t1 fs1],
           (entry env base outDir i src fs') as [t1' fs1'].
  specialize (IH (S i) fs1 fs1').
  destruct (loop env base outDir (S i) rest fs1) as [t2 fs2],
           (loop env base outDir (S i) rest fs1') as [t2' fs2'].
  cbn in *. by rewrite He, IH.
Qed.

End Loop.

Lemma main_reaches_loop env pageURL outDir fs base imgSrcs :
  pageURL <> "" -> outDir <> "" ->
  os_MkdirAll env outDir = None ->
  url.Parse pageURL = ok base ->
  chromedp_Run env pageURL = ok imgSrcs ->
  main env pageURL outDir fs =
    {| exit_code := 0;
       trace := (if gostr.is_empty (chromeProfileDir env) then [Log_NoProfileDir] else [])
                ++ (loop env base outDir 0 imgSrcs fs).1;
       final_fs := (loop env base outDir 0 imgSrcs fs).2 |}.
Proof.
  intros Hp Ho Hm Hb Hc. unfold main.
  destruct pageURL; [done|]. destruct outDir; [done|]. simpl.
  rewrite Hm, Hb, Hc. by destruct (loop _ _ _ _ _ _).
Qed.

(** * The claims about the Fetcher and the loop *)

(** C2. For every URL whose final HTTP response status is not 200,
    [downloadFile] returns an error that carries the status text, and the
    file system is left as it was: no file is created. *)
Theorem C2_not_200_is_an_error_and_writes_nothing
    (env : Env) (urlStr outDir fileName : string) (fs : FS) (resp : http.Response) :
  http_Get env urlStr = ok resp ->
  http.StatusCode resp <> 200 ->
  downloadFile env urlStr outDir fileName fs = (Some (StatusNotOK (http.Status resp)), fs).
Proof. apply downloadFile_not_ok. Qed.

Lemma C2_witness :
  downloadFile sample_env "http://other.test/missing.jpg" "out" "missing.jpg" ∅
  = (Some (StatusNotOK "404 Not Found"), ∅).
Proof.
  apply (C2_not_200_is_an_error_and_writes_nothing sample_env
           "http://other.test/missing.jpg" "out" "missing.jpg" ∅ missing_response).
  - reflexivity.
  - simpl. lia.
Defined.

(** C1, as the code has it. For every URL served with HTTP status 200,
    when the file at [filepath.Join(outDir, fileName)] can be created and
    the copy of the body is not broken off, [downloadFile] returns no error
    and the file holds exactly the bytes of the response body, whatever it
    held before; every other file is as it was. *)
Theorem C1_200_writes_the_body
    (env : Env) (urlStr outDir fileName : string) (fs : FS) (resp : http.Response) :
  http_Get env urlStr = ok resp ->
  http.StatusCode resp = 200 ->
  os_Create_error env (filepath.Join outDir fileName) = None ->
  io_Copy_error env (filepath.Join outDir fileName) = None ->
  (downloadFile env urlStr outDir fileName fs).1 = None
  /\ (downloadFile env urlStr outDir fileName fs).2 !! filepath.Join outDir fileName
     = Some (http.Body resp)
  /\ forall other, other <> filepath.Join outDir fileName ->
       (downloadFile env urlStr outDir fileName fs).2 !! other = fs !! other.
Proof.
  intros Hget Hst Hcreate Hcopy.
  rewrite (downloadFile_ok env _ _ _ _ resp Hget Hst). simpl.
  rewrite Hcreate, Hcopy. simpl. split; [done|]. split.
  - apply lookup_insert_eq.
  - intros other Hne. by apply lookup_insert_ne.
Qed.

Lemma C1_witness :
  (downloadFile sample_env "https://site.test/a.png" "out" "a.png"
     {[ "out/a.png" := "stale" ]}).1 = None
  /\ (downloadFile sample_env "https://site.test/a.png" "out" "a.png"
        {[ "out/a.png" := "stale" ]}).2 !! "out/a.png" = Some "PNG-bytes".
Proof.
  destruct (C1_200_writes_the_body sample_env "https://site.test/a.png" "out" "a.png"
              {[ "out/a.png" := "stale" ]} png_response) as (H1 & H2 & _);
    [reflexivity | reflexivity | reflexivity | reflexivity |].
  split; [exact H1 | exact H2].
Defined.

(** C1, as it is written, fails: the URL [https://site.test/x/%2e%2e] is
    served with status 200, its path decodes to [/x/..], whose base name
    [..] joined to the directory [out] is the current directory; the file
    cannot be created and [downloadFile] returns the error. *)
Lemma C1_counterexample : ~ download_succeeds_on_every_200.
Proof.
  intros H.
  destruct (H sample_env "https://site.test/x/%2e%2e" "out" ".." ∅ png_response) as [H1 _];
    [reflexivity | reflexivity |].
  vm_compute in H1. discriminate H1.
Qed.

(** C5. An empty raw source string is skipped silently: [resolve] yields
    no absolute URL, and the pass of the loop prints nothing, logs nothing,
    sends no request and leaves the file system as it was; the loop goes on
    with the next entry. *)
Theorem C5_empty_src_is_skipped
    (env : Env) (base : url.URL) (outDir : string) (i : nat) (rest : list string) (fs : FS) :
  resolve base "" = Skipped
  /\ entry_fileName base "" i = None
  /\ entry env base outDir i "" fs = ([], fs)
  /\ loop env base outDir i ("" :: rest) fs = loop env base outDir (S i) rest fs.
Proof.
  repeat split; try reflexivity.
  rewrite loop_cons. cbn. by destruct (loop env base outDir (S i) rest fs).
Qed.

(** C9. A failing entry is logged and nothing else: when the run gets as
    far as the loop, the entries before the failing one, the failing one
    and the entries after it are each processed in turn, the later ones
    from the next index by the same loop and with the same output whatever
    files the failing entry left, and the exit status is 0.  An
    entry that does not resolve logs one line and touches no file; an
    entry whose download fails (transport error, status other than 200,
    file error) prints its line, sends its request and logs the error. *)
Theorem C9_failures_are_isolated
    (env : Env) (pageURL outDir : string) (fs : FS) (base : url.URL)
    (before after : list string) (src : string) :
  pageURL <> "" -> outDir <> "" ->
  os_MkdirAll env outDir = None ->
  url.Parse pageURL = ok base ->
  chromedp_Run env pageURL = ok (before ++ src :: after) ->
  let i := length before in
  let r1 := loop env base outDir 0 before fs in
  let re := entry env base outDir i src r1.2 in
  let r2 := loop env base outDir (S i) after re.2 in
  let out := main env pageURL outDir fs in
  exit_code out = 0
  /\ trace out = (if gostr.is_empty (chromeProfileDir env) then [Log_NoProfileDir] else [])
                 ++ r1.1 ++ re.1 ++ r2.1
  /\ final_fs out = r2.2
  /\ (forall fs', (loop env base outDir (S i) after fs').1 = r2.1)
  /\ (forall e, resolve base src = Unparsable e ->
        re = ([Log_SrcParse src e], r1.2))
  /\ (forall imgURL err fs',
        resolve base src = Absolute imgURL ->
        downloadFile env (url.String_ imgURL) outDir (deriveName (url.Path imgURL) i) r1.2
          = (Some err, fs') ->
        re = ([Stdout (image_line i imgURL); Request (url.String_ imgURL);
               Log_Download (url.String_ imgURL) err], fs')).
Proof.
  intros Hp Ho Hm Hb Hc i r1 re r2 out.
  unfold out. rewrite (main_reaches_loop env pageURL outDir fs base _ Hp Ho Hm Hb Hc).
  cbn [exit_code trace final_fs].
  rewrite loop_app. fold r1. destruct r1 as [t1 fs1] eqn:E1.
  rewrite Nat.add_0_l, loop_cons. fold i. cbn [snd] in re. fold re.
  destruct re as [te fs2] eqn:Ee. cbn [snd] in r2. fold r2.
  destruct r2 as [t2 fs3] eqn:E2. cbn [fst snd].
  split; [done|]. split; [done|]. split; [done|]. split.
  { intros fs'. change t2 with (t2, fs3).1. rewrite <- E2. unfold r2.
    apply loop_trace_any_fs. }
  split.
  - intros e He. rewrite <- Ee. unfold re. by apply entry_unparsable.
  - intros imgURL err fs' Hr Hd. rewrite <- Ee. unfold re.
    by apply entry_download_failed.
Qed.

Lemma C9_witness :
  let out := main sample_env sample_page "out" ∅ in
  exit_code out = 0
  /\ trace out =
       [ Stdout ("Image 1: https://site.test/a.png" +:+ String "010" "");
         Request "https://site.test/a.png";
         Log_SrcParse "%zz" {| url.Op := "parse"; url.URL_ := "%zz";
                               url.Err := url.EscapeError "%zz" |};
         Stdout ("Image 4: http://other.test/missing.jpg" +:+ String "010" "");
         Request "http://other.test/missing.jpg";
         Log_Download "http://other.test/missing.jpg" (StatusNotOK "404 Not Found");
         Stdout ("Image 5: http://other.test/b.jpg" +:+ String "010" "");
         Request "http://other.test/b.jpg" ]
  /\ final_fs out = {[ "out/a.png" := "PNG-bytes"; "out/b.jpg" := "JPG-bytes" ]}.
Proof.
  destruct (C9_failures_are_isolated sample_env sample_page "out" ∅ sample_base
              ["/a.png"; ""; "%zz"] ["http://other.test/b.jpg"]
              "http://other.test/missing.jpg")
    as (H1 & H2 & H3 & _); [done | done | reflexivity | reflexivity | reflexivity |].
  split; [exact H1|]. split.
  - rewrite H2. vm_compute. reflexivity.
  - rewrite H3. vm_compute. reflexivity.
Defined.

(** * The Name Deriver: [filepath.Base], [filepath.Ext] and the file name *)

Section NameDeriver.
Import gostr.

Local Ltac lens := unfold len in *; cbn [String.length] in *.

(** ** The loops of the library, from the last byte *)

Lemma stripTrailing_snoc (s : string) (c : ascii) :
  filepath.stripTrailing (len (s +:+ String c "")) (s +:+ String c "")
  = if Ascii.eqb c "/" then filepath.stripTrailing (len s) s else s +:+ String c "".
Proof.
  rewrite len_snoc. cbn [filepath.stripTrailing].
  rewrite at_app_len, take_app_len. reflexivity.
Qed.

Lemma trim_trailing_slashes_snoc (s : string) (c : ascii) :
  trim_trailing_slashes (s +:+ String c "")
  = if Ascii.eqb c "/" then trim_trailing_slashes s else s +:+ String c "".
Proof.
  induction s as [|a s IH].
  - rewrite sapp_nil_l. cbn. by destruct (Ascii.eqb c "/").
  - rewrite sapp_cons. cbn [trim_trailing_slashes]. rewrite IH.
    destruct (Ascii.eqb c "/"); [done|].
    rewrite is_empty_snoc, andb_false_r. reflexivity.
Qed.

Lemma stripTrailing_spec (s : string) :
  filepath.stripTrailing (len s) s = trim_trailing_slashes s.
Proof.
  induction s as [|s c IH] using snoc_ind; [done|].
  by rewrite stripTrailing_snoc, trim_trailing_slashes_snoc, IH.
Qed.

Lemma lastSeparator_app (s t : string) (n : nat) :
  n <= len s -> filepath.lastSeparator n (s +:+ t) = filepath.lastSeparator n s.
Proof.
  induction n as [|n IH]; intros Hn; [done|].
  cbn [filepath.lastSeparator]. rewrite at_app_l by lia.
  destruct (at_ n s) as [c|]; [|done].
  destruct (filepath.IsPathSeparator c); [done|]. apply IH. lia.
Qed.

Lemma lastSeparator_spec (s : string) :
  filepath.lastSeparator (len s) s
  = match strings.LastIndex s "/" with Some i => S i | None => 0 end.
Proof.
  induction s as [|s c IH] using snoc_ind; [done|].
  rewrite len_snoc. cbn [filepath.lastSeparator].
  rewrite at_app_len, LastIndex1_snoc. unfold filepath.IsPathSeparator.
  destruct (Ascii.eqb c "/"); [done|].
  rewrite lastSeparator_app by lia. exact IH.
Qed.

Lemma Ext_loop_app (s t : string) (n : nat) :
  n <= len s ->
  filepath.Ext_loop n (s +:+ t)
  = if is_empty (filepath.Ext_loop n s) then "" else filepath.Ext_loop n s +:+ t.
Proof.
  induction n as [|n IH]; intros Hn; [done|].
  cbn [filepath.Ext_loop]. rewrite at_app_l by lia.
  destruct (at_ n s) as [c|]; [|done].
  destruct (filepath.IsPathSeparator c); [done|].
  destruct (Ascii.eqb c ".").
  - rewrite drop_app_le by lia. by rewrite drop_nonempty by lia.
  - apply IH. lia.
Qed.

Lemma Ext_snoc (s : string) (c : ascii) :
  filepath.Ext (s +:+ String c "")
  = if Ascii.eqb c "/" then ""
    else if Ascii.eqb c "." then "."
    else if is_empty (filepath.Ext s) then "" else filepath.Ext s +:+ String c "".
Proof.
  unfold filepath.Ext. rewrite len_snoc. cbn [filepath.Ext_loop].
  rewrite at_app_len. unfold filepath.IsPathSeparator.
  destruct (Ascii.eqb c "/"); [done|].
  destruct (Ascii.eqb_spec c ".") as [->|_]; [by rewrite drop_app_len|].
  by apply Ext_loop_app.
Qed.

(** ** The words of the specification, from the last byte *)

Lemma final_segment_snoc (s : string) (c : ascii) :
  final_segment (s +:+ String c "")
  = if Ascii.eqb c "/" then "" else final_segment s +:+ String c "".
Proof.
  unfold final_segment. rewrite LastIndex1_snoc.
  destruct (Ascii.eqb c "/").
  - replace (len s + 1) with (len (s +:+ String c "")) by (rewrite len_snoc; lia).
    rewrite <- (sapp_nil_r (s +:+ String c "")) at 2. apply drop_app_len.
  - destruct (strings.LastIndex s "/") as [i|] eqn:E; [|done].
    apply LastIndex1_lt in E. apply drop_app_le. lia.
Qed.

Lemma extension_of_snoc (s : string) (c : ascii) :
  extension_of (s +:+ String c "")
  = if Ascii.eqb c "." then "."
    else if is_empty (extension_of s) then "" else extension_of s +:+ String c "".
Proof.
  unfold extension_of. rewrite LastIndex1_snoc.
  destruct (Ascii.eqb_spec c ".") as [->|_]; [apply drop_app_len|].
  destruct (strings.LastIndex s ".") as [i|] eqn:E; [|done].
  apply LastIndex1_lt in E. rewrite drop_nonempty by done. apply drop_app_le. lia.
Qed.

Lemma final_segment_not_slash (s : string) : final_segment s <> "/".
Proof.
  destruct (snoc_cases s) as [-> | (t & c & ->)]; [done|].
  rewrite final_segment_snoc.
  destruct (Ascii.eqb_spec c "/") as [->|Hc]; [done|].
  intros H. change "/" with ("" +:+ String "/" "") in H.
  apply snoc_inj in H. by destruct H.
Qed.

(** ** [filepath.Ext] and [filepath.Base] in the words of the specification *)

Lemma Ext_spec (path : string) : filepath.Ext path = extension_of (final_segment path).
Proof.
  induction path as [|s c IH] using snoc_ind; [done|].
  rewrite Ext_snoc, final_segment_snoc.
  destruct (Ascii.eqb c "/"); [done|].
  rewrite extension_of_snoc, IH. reflexivity.
Qed.

Lemma Base_spec (path : string) :
  filepath.Base path
  = if is_empty path then "."
    else let segment := final_segment (trim_trailing_slashes path) in
         if is_empty segment then "/" else segment.
Proof.
  unfold filepath.Base. destruct (is_empty path); [done|].
  rewrite stripTrailing_spec, lastSeparator_spec. cbn zeta.
  unfold final_segment.
  destruct (strings.LastIndex (trim_trailing_slashes path) "/") as [i|]; [|done].
  by rewrite Nat.add_1_r.
Qed.

Lemma Base_nonempty (path : string) : filepath.Base path <> "".
Proof.
  rewrite Base_spec. destruct (is_empty path); [done|]. cbn zeta.
  destruct (final_segment _) eqn:E; done.
Qed.

Lemma Base_trailing_slash (path : string) :
  path <> "" -> filepath.Base (path +:+ "/") = filepath.Base path.
Proof.
  intros Hne. rewrite !Base_spec, trim_trailing_slashes_snoc.
  rewrite is_empty_snoc. apply is_empty_false in Hne. by rewrite Hne.
Qed.

Lemma deriveName_cases (path : string) (i : nat) :
  deriveName path i
  = if String.eqb (filepath.Base path) "/" || String.eqb (filepath.Base path) "."
    then synthesized_name path i else filepath.Base path.
Proof.
  unfold deriveName, synthesized_name.
  destruct (String.eqb_spec (filepath.Base path) "") as [E|_]; [|done].
  by apply Base_nonempty in E.
Qed.

End NameDeriver.

(** * The claims about the Name Deriver and the extension helper *)

(** C8. For every path string, [getFileExtension] returns the literal
    extension of the final path segment (the substring from its last dot,
    the dot included, case preserved: [photo.PNG] yields [.PNG]) when there
    is one, and the literal default [.jpg] otherwise. *)
Theorem C8_extension_helper (path : string) :
  getFileExtension path = ext_spec path
  /\ getFileExtension "photo.PNG" = ".PNG"
  /\ getFileExtension "photo" = ".jpg".
Proof.
  split; [|done]. unfold getFileExtension, ext_spec. by rewrite Ext_spec.
Qed.

(** C10. For every URL path string the base name is not empty: it is
    ["."] for the empty path and trailing slashes are stripped otherwise.
    So the test [fileName == ""] of the fallback condition never holds, and
    the synthesized name is used exactly when the base name is ["/"] or
    ["."]. *)
Theorem C10_base_name_is_never_empty (path : string) (i : nat) (c : ascii) :
  filepath.Base path <> ""
  /\ String.eqb (filepath.Base path) "" = false
  /\ filepath.Base "" = "."
  /\ filepath.Base (String c path +:+ "/") = filepath.Base (String c path)
  /\ deriveName path i
     = if String.eqb (filepath.Base path) "/" || String.eqb (filepath.Base path) "."
       then "image_" +:+ fmt_d (i + 1) +:+ getFileExtension path
       else filepath.Base path.
Proof.
  split; [apply Base_nonempty|]. split.
  { apply String.eqb_neq, Base_nonempty. }
  split; [done|]. split; [by apply Base_trailing_slash|].
  apply deriveName_cases.
Qed.

(** C6, as the code has it. For every path of a resolved URL and every
    0-based index, [deriveName] returns the final path segment of the path
    without its trailing slashes, when that segment is neither empty nor
    ["."]; otherwise it returns [image_<index+1><ext>], where [<index+1>] is
    the number the console line of the same entry shows and [ext] comes
    from the extension helper on the whole path. *)
Theorem C6_derived_name (path : string) (i : nat) (imgURL : url.URL) :
  deriveName path i
  = (let segment := final_segment (trim_trailing_slashes path) in
     if String.eqb segment "" || String.eqb segment "."
     then "image_" +:+ fmt_d (i + 1) +:+ getFileExtension path
     else segment)
  /\ image_line i imgURL
     = "Image " +:+ fmt_d (i + 1) +:+ ": " +:+ url.String_ imgURL +:+ String "010" "".
Proof.
  split; [|done].
  rewrite deriveName_cases, Base_spec. unfold synthesized_name. cbn zeta.
  destruct path as [|a path]; [done|]. cbn [gostr.is_empty].
  pose proof (final_segment_not_slash (trim_trailing_slashes (String a path))) as Hs.
  destruct (final_segment (trim_trailing_slashes (String a path))) as [|b seg]; [done|].
  cbn [gostr.is_empty].
  apply String.eqb_neq in Hs. rewrite Hs. reflexivity.
Qed.

(** C6, as it is written, fails: the path [/weird/path/] has an empty
    component after its last slash, yet the derived name is [path], not
    [image_1.jpg]. *)
Lemma C6_counterexample : ~ deriveName_is_final_segment.
Proof.
  intros H. specialize (H "/weird/path/" 0). vm_compute in H. discriminate H.
Qed.

(** * [resolvePath], element by element *)

Section Elements.
Import gostr.

Local Ltac lens := unfold len in *; cbn [String.length] in *.

Lemma prefix_nil (s : string) : String.prefix "" s = true.
Proof. by destruct s. Qed.

Lemma prefix_cons (a b : ascii) (s t : string) :
  String.prefix (String a s) (String b t) = Ascii.eqb a b && String.prefix s t.
Proof.
  cbn. destruct (ascii_dec a b) as [->|Hne].
  - by rewrite Ascii.eqb_refl.
  - apply Ascii.eqb_neq in Hne. by rewrite Hne.
Qed.

Lemma elements_nonempty (s : string) : elements s <> [].
Proof.
  induction s as [|c s IH]; [done|]. cbn.
  destruct (Ascii.eqb c "/"); [done|]. by destruct (elements s).
Qed.

Lemma elements_slash_free (s : string) : slash_free s = true -> elements s = [s].
Proof.
  induction s as [|c s IH]; [done|]. cbn. intros H.
  apply andb_prop in H as [H1 H2]. apply negb_true_iff in H1. rewrite H1.
  by rewrite (IH H2).
Qed.

Lemma elements_cons_slash (e rest : string) :
  slash_free e = true ->
  elements (e +:+ String "/" rest) = e :: elements rest.
Proof.
  induction e as [|c e IH]; [done|]. cbn [slash_free]. intros H.
  apply andb_prop in H as [H1 H2]. apply negb_true_iff in H1.
  rewrite sapp_cons. cbn [elements]. rewrite H1. by rewrite (IH H2).
Qed.

Lemma elements_are_slash_free (s : string) :
  Forall (fun e => slash_free e = true) (elements s).
Proof.
  induction s as [|c s IH]; [by repeat constructor|]. cbn.
  destruct (Ascii.eqb c "/") eqn:E; [by constructor|].
  destruct (elements s) as [|e es].
  - repeat constructor. cbn. by rewrite E.
  - inversion IH; subst. constructor; [|done]. cbn. by rewrite E.
Qed.

Lemma join_elements_cons (e : string) (es : list string) :
  es <> [] -> join_elements (e :: es) = e +:+ String "/" (join_elements es).
Proof. by destruct es. Qed.

Lemma join_elements_of_elements (s : string) : join_elements (elements s) = s.
Proof.
  induction s as [|c s IH]; [done|]. cbn [elements].
  pose proof (elements_nonempty s) as Hne.
  destruct (Ascii.eqb_spec c "/") as [->|_].
  - rewrite join_elements_cons by done. by rewrite IH.
  - destruct (elements s) as [|e es]; [done|].
    destruct es as [|e' es].
    + cbn in *. by rewrite IH.
    + rewrite !join_elements_cons in * by done. rewrite sapp_cons. by rewrite IH.
Qed.

(** [strings.Index] and [strings.Cut] at the first slash. *)
Lemma Index_slash_free (e rest : string) :
  slash_free e = true ->
  strings.Index (e +:+ String "/" rest) "/" = Some (len e).
Proof.
  induction e as [|c e IH]; cbn [slash_free]; intros H.
  - rewrite sapp_nil_l. cbn [strings.Index]. by rewrite prefix_cons, prefix_nil.
  - apply andb_prop in H as [H1 H2]. apply negb_true_iff in H1.
    rewrite sapp_cons. cbn [strings.Index]. rewrite prefix_cons.
    rewrite (ascii_eqb_sym "/" c), H1. cbn [andb]. by rewrite (IH H2).
Qed.

Lemma Index_no_slash (e : string) :
  slash_free e = true -> strings.Index e "/" = None.
Proof.
  induction e as [|c e IH]; cbn [slash_free]; intros H; [done|].
  apply andb_prop in H as [H1 H2]. apply negb_true_iff in H1.
  cbn [strings.Index]. rewrite prefix_cons.
  rewrite (ascii_eqb_sym "/" c), H1. cbn [andb]. by rewrite (IH H2).
Qed.

Lemma Cut_slash (e rest : string) :
  slash_free e = true ->
  strings.Cut (e +:+ String "/" rest) "/" = (e, rest, true).
Proof.
  intros H. unfold strings.Cut. rewrite (Index_slash_free _ _ H).
  rewrite take_app_len.
  replace (len e + len "/") with (len (e +:+ "/")) by (by rewrite len_app).
  change (String "/" rest) with ("/" +:+ rest). rewrite <- sapp_assoc.
  by rewrite drop_app_len.
Qed.

Lemma Cut_no_slash (e : string) :
  slash_free e = true -> strings.Cut e "/" = (e, "", false).
Proof. intros H. unfold strings.Cut. by rewrite (Index_no_slash _ H). Qed.

(** The loop of [resolvePath] runs the passes over the elements of
    [remaining], and ends on the last of them. *)
Lemma resolvePath_loop_elements (elems : list string) :
  elems <> [] ->
  Forall (fun e => slash_free e = true) elems ->
  forall (fuel : nat) (dst : string) (first : bool),
    length elems <= S fuel ->
    url.resolvePath_loop fuel (join_elements elems) dst first
    = ((resolvePath_passes elems (dst, first)).1, List.last elems "").
Proof.
  induction elems as [|e es IH]; [done|]. intros _ Hall fuel dst first Hfuel.
  inversion Hall as [|? ? He Hes]; subst.
  destruct es as [|e' es].
  - cbn [join_elements]. destruct fuel; cbn [url.resolvePath_loop];
      rewrite (Cut_no_slash _ He); unfold resolvePath_passes; cbn;
      by destruct (url.resolvePath_step dst first e).
  - rewrite join_elements_cons by done.
    destruct fuel as [|fuel]; [cbn in Hfuel; lia|].
    cbn [url.resolvePath_loop]. rewrite (Cut_slash _ _ He).
    unfold resolvePath_passes. cbn [fold_left fst snd].
    destruct (url.resolvePath_step dst first e) as [dst' first'] eqn:E.
    rewrite IH; [|done|done|cbn in *; lia].
    reflexivity.
Qed.

Lemma length_elements_le (s : string) : length (elements s) <= S (len s).
Proof.
  induction s as [|c s IH]; [cbn; lia|]. cbn [elements]. lens.
  destruct (Ascii.eqb c "/"); [cbn; lia|].
  destruct (elements s); cbn in *; lia.
Qed.

(** [resolvePath] on a non-empty full path. *)
Lemma resolvePath_loop_full (full : string) :
  url.resolvePath_loop (len full) full "/" true
  = ((resolvePath_passes (elements full) ("/", true)).1, List.last (elements full) "").
Proof.
  rewrite <- (join_elements_of_elements full) at 2.
  apply resolvePath_loop_elements.
  - apply elements_nonempty.
  - apply elements_are_slash_free.
  - apply length_elements_le.
Qed.

End Elements.

(** * RFC 3986, 5.2.4, element by element *)

Section RemoveDotSegments.
Import gostr.

Local Ltac lens := unfold len in *; cbn [String.length] in *.

Lemma span_slash (e rest : string) :
  slash_free e = true ->
  rfc3986.span "/" (e +:+ String "/" rest) = (e, String "/" rest).
Proof.
  induction e as [|c e IH]; cbn [slash_free]; intros H; [done|].
  apply andb_prop in H as [H1 H2]. apply negb_true_iff in H1.
  rewrite sapp_cons. cbn [rfc3986.span one_of]. rewrite H1. cbn [orb].
  by rewrite (IH H2).
Qed.

Lemma span_no_slash (e : string) :
  slash_free e = true -> rfc3986.span "/" e = (e, "").
Proof.
  induction e as [|c e IH]; cbn [slash_free]; intros H; [done|].
  apply andb_prop in H as [H1 H2]. apply negb_true_iff in H1.
  cbn [rfc3986.span one_of]. rewrite H1. cbn [orb]. by rewrite (IH H2).
Qed.

Lemma string_eqb_cons (a b : ascii) (s t : string) :
  String.eqb (String a s) (String b t) = Ascii.eqb a b && String.eqb s t.
Proof. cbn. by destruct (Ascii.eqb a b). Qed.

(** An element that is followed by a slash starts with ["./"] only if it
    is the dot, and with ["../"] only if it is the double dot. *)
Lemma prefix_dot_slash (e rest : string) :
  slash_free e = true ->
  String.prefix "./" (e +:+ String "/" rest) = String.eqb e ".".
Proof.
  intros H. destruct e as [|a e]; [done|].
  rewrite sapp_cons, prefix_cons, string_eqb_cons, (ascii_eqb_sym "." a).
  destruct (Ascii.eqb a "."); [|done]. cbn [andb].
  destruct e as [|b e]; [by rewrite sapp_nil_l, prefix_cons, prefix_nil|].
  cbn [slash_free] in H. apply andb_prop in H as [_ H].
  apply andb_prop in H as [H _]. apply negb_true_iff in H.
  rewrite sapp_cons, prefix_cons, (ascii_eqb_sym "/" b), H. done.
Qed.

Lemma prefix_dotdot_slash (e rest : string) :
  slash_free e = true ->
  String.prefix "../" (e +:+ String "/" rest) = String.eqb e "..".
Proof.
  intros H. destruct e as [|a e]; [done|].
  rewrite sapp_cons, prefix_cons, string_eqb_cons, (ascii_eqb_sym "." a).
  destruct (Ascii.eqb a "."); [|done]. cbn [andb].
  cbn [slash_free] in H. apply andb_prop in H as [_ H].
  by apply prefix_dot_slash.
Qed.

Lemma prefix_slash_free (p e : string) :
  slash_free e = true -> strings.Contains p "/" = true -> String.prefix p e = false.
Proof.
  revert e. induction p as [|a p IH]; intros e He Hp; [done|].
  destruct e as [|b e]; [done|]. rewrite prefix_cons.
  cbn [slash_free] in He. apply andb_prop in He as [H1 H2]. apply negb_true_iff in H1.
  destruct (Ascii.eqb_spec a b) as [->|_]; [|done]. cbn [andb].
  apply IH; [done|].
  unfold strings.Contains in *. cbn [strings.Index] in Hp.
  rewrite prefix_cons, (ascii_eqb_sym "/" b), H1 in Hp. cbn [andb] in Hp.
  by destruct (strings.Index p "/").
Qed.

Lemma eqb_with_slash (e rest s : string) :
  slash_free s = true -> String.eqb (e +:+ String "/" rest) s = false.
Proof.
  revert s. induction e as [|a e IH]; intros s Hs.
  - rewrite sapp_nil_l. destruct s as [|b s]; [done|].
    cbn [slash_free] in Hs. apply andb_prop in Hs as [H1 _].
    apply negb_true_iff in H1. rewrite string_eqb_cons, (ascii_eqb_sym "/" b), H1. done.
  - rewrite sapp_cons. destruct s as [|b s]; [done|].
    cbn [slash_free] in Hs. apply andb_prop in Hs as [_ H2].
    rewrite string_eqb_cons, (IH _ H2). apply andb_false_r.
Qed.

(** One pass of the loop on an element that a slash follows. *)
Lemma remove_dot_segments_pass (fuel : nat) (e rest output : string) :
  slash_free e = true ->
  rfc3986.remove_dot_segments_loop (S fuel) (String "/" (e +:+ String "/" rest)) output
  = rfc3986.remove_dot_segments_loop fuel (String "/" rest) (rfc3986_pass output e).
Proof.
  intros He. cbn [rfc3986.remove_dot_segments_loop is_empty].
  rewrite (prefix_cons "." "/"), (prefix_cons "." "/"). cbn [Ascii.eqb Bool.eqb andb].
  rewrite (prefix_cons "/" "/"), (prefix_dot_slash _ _ He). cbn [Ascii.eqb Bool.eqb andb].
  unfold rfc3986_pass.
  destruct (String.eqb_spec e ".") as [->|Hdot]; [done|].
  rewrite (string_eqb_cons "/" "/"), (eqb_with_slash e rest ".") by done.
  cbn [Ascii.eqb Bool.eqb andb].
  rewrite (prefix_cons "/" "/"), (prefix_dotdot_slash _ _ He). cbn [Ascii.eqb Bool.eqb andb].
  destruct (String.eqb_spec e "..") as [->|Hdd]; [done|].
  rewrite (string_eqb_cons "/" "/"), (eqb_with_slash e rest "..") by done.
  cbn [Ascii.eqb Bool.eqb andb].
  rewrite (string_eqb_cons "/" "."), (string_eqb_cons "/" "."). cbn [Ascii.eqb Bool.eqb andb orb].
  cbn [rfc3986.first_segment]. rewrite (span_slash _ _ He).
  reflexivity.
Qed.

(** The end of the loop, on the last element. *)
Lemma remove_dot_segments_last (fuel : nat) (e output : string) :
  slash_free e = true ->
  len (String "/" e) <= fuel ->
  rfc3986.remove_dot_segments_loop fuel (String "/" e) output
  = rfc3986_pass output e +:+ (if is_dot_segment e then "/" else "").
Proof.
  intros He Hfuel. unfold rfc3986_pass, is_dot_segment.
  destruct (String.eqb_spec e ".") as [->|Hdot].
  { do 2 (destruct fuel as [|fuel]; [lens; lia|]). cbn. by destruct fuel. }
  destruct (String.eqb_spec e "..") as [->|Hdd].
  { do 2 (destruct fuel as [|fuel]; [lens; lia|]). cbn. by destruct fuel. }
  destruct fuel as [|fuel]; [lens; lia|].
  cbn [rfc3986.remove_dot_segments_loop is_empty orb].
  rewrite (prefix_cons "." "/"), (prefix_cons "." "/"). cbn [Ascii.eqb Bool.eqb andb].
  rewrite (prefix_cons "/" "/"), (prefix_slash_free "./" e) by done.
  cbn [Ascii.eqb Bool.eqb andb].
  rewrite (string_eqb_cons "/" "/"). cbn [Ascii.eqb Bool.eqb andb].
  apply String.eqb_neq in Hdot, Hdd. rewrite Hdot.
  rewrite (prefix_cons "/" "/"), (prefix_slash_free "../" e) by done.
  cbn [Ascii.eqb Bool.eqb andb].
  rewrite (string_eqb_cons "/" "/"). cbn [Ascii.eqb Bool.eqb andb]. rewrite Hdd.
  rewrite (string_eqb_cons "/" "."), (string_eqb_cons "/" "."). cbn [Ascii.eqb Bool.eqb andb orb].
  cbn [rfc3986.first_segment]. rewrite (span_no_slash _ He).
  rewrite sapp_nil_r. change (String "/" e) with ("/" +:+ e).
  by destruct fuel.
Qed.

(** The loop on a rooted path, over its elements. *)
Lemma remove_dot_segments_elements (elems : list string) :
  elems <> [] ->
  Forall (fun e => slash_free e = true) elems ->
  forall (fuel : nat) (output : string),
    len (String "/" (join_elements elems)) <= fuel ->
    rfc3986.remove_dot_segments_loop fuel (String "/" (join_elements elems)) output
    = rfc3986_passes elems output
      +:+ (if is_dot_segment (List.last elems "") then "/" else "").
Proof.
  induction elems as [|e es IH]; [done|]. intros _ Hall fuel output Hfuel.
  inversion Hall as [|? ? He Hes]; subst.
  destruct es as [|e' es].
  - cbn [join_elements] in *. by apply remove_dot_segments_last.
  - rewrite join_elements_cons in * by done.
    destruct fuel as [|fuel]; [lens; lia|].
    rewrite remove_dot_segments_pass by done.
    rewrite IH; [done|done|done|].
    change (len (String "/" ?x)) with (S (len x)) in *.
    rewrite len_app in Hfuel.
    change (len (String "/" ?x)) with (S (len x)) in Hfuel. lia.
Qed.

End RemoveDotSegments.

(** * [resolvePath] against RFC 3986, 5.2.4 *)

Section Agreement.
Import gostr.

Local Ltac sapp := rewrite ?sapp_assoc, ?sapp_cons, ?sapp_nil_l, ?sapp_nil_r.

Lemma LastIndex_slash_cons (y : string) :
  strings.LastIndex (String "/" y) "/"
  = match strings.LastIndex y "/" with Some j => Some (S j) | None => Some 0 end.
Proof.
  cbn [strings.LastIndex]. destruct (strings.LastIndex y "/"); [done|].
  by rewrite prefix_cons, prefix_nil.
Qed.

Lemma LastIndex_other_cons (a : ascii) (y : string) :
  a <> "/"%char ->
  strings.LastIndex (String a y) "/"
  = match strings.LastIndex y "/" with Some j => Some (S j) | None => None end.
Proof.
  intros Ha. cbn [strings.LastIndex]. destruct (strings.LastIndex y "/"); [done|].
  rewrite prefix_cons. assert (Ascii.eqb "/" a = false) as ->; [|done].
  apply Ascii.eqb_neq. congruence.
Qed.

Lemma slash_free_head (e : string) :
  slash_free e = true -> e <> "" -> exists a y, e = String a y /\ a <> "/"%char.
Proof.
  destruct e as [|a y]; [done|]. cbn. intros H _.
  apply andb_prop in H as [H _]. apply negb_true_iff, Ascii.eqb_neq in H. eauto.
Qed.

(** A pass on the dot element. *)
Lemma agree_dot dst first output :
  buffers_agree dst first output ->
  buffers_agree (url.resolvePath_step dst first ".").1
                (url.resolvePath_step dst first ".").2 (rfc3986_pass output ".").
Proof.
  intros [(-> & -> & ->) | [(-> & -> & H) | (-> & -> & H)]]; cbn.
  - right; left. eauto.
  - right; left. eauto.
  - right; right. eauto.
Qed.

(** A pass on the double dot element. *)
Lemma agree_dotdot dst first output :
  buffers_agree dst first output ->
  buffers_agree (url.resolvePath_step dst first "..").1
                (url.resolvePath_step dst first "..").2 (rfc3986_pass output "..").
Proof.
  unfold rfc3986_pass, rfc3986.remove_last_segment, url.resolvePath_step.
  cbn [String.eqb Ascii.eqb Bool.eqb].
  intros [(-> & -> & ->) | [(-> & -> & H) | (-> & -> & (a & y & -> & Ha))]].
  - cbn. left. eauto.
  - cbn [drop]. destruct H as [-> | (y & ->)].
    + cbn. left. eauto.
    + rewrite LastIndex_slash_cons.
      destruct (strings.LastIndex y "/") as [j|]; cbn [fst snd take].
      * right; left. split; [done|]. split; [done|]. right. eauto.
      * right; left. split; [done|]. split; [done|]. by left.
  - cbn [drop]. rewrite LastIndex_slash_cons, (LastIndex_other_cons a y Ha).
    destruct (strings.LastIndex y "/") as [j|]; cbn [fst snd take].
    + right; right. split; [done|]. split; [done|]. eauto.
    + left. eauto.
Qed.

(** A pass on an element that is neither empty nor a dot segment. *)
Lemma agree_other dst first output e :
  buffers_agree dst first output ->
  slash_free e = true -> e <> "" -> is_dot_segment e = false ->
  buffers_agree (url.resolvePath_step dst first e).1
                (url.resolvePath_step dst first e).2 (rfc3986_pass output e).
Proof.
  intros Hag He Hne Hdot. unfold is_dot_segment in Hdot.
  apply orb_false_elim in Hdot as [H1 H2].
  unfold rfc3986_pass, url.resolvePath_step. rewrite H1, H2. cbn [fst snd].
  destruct (slash_free_head e He Hne) as (a & y & -> & Ha).
  destruct Hag as [(-> & -> & ->) | [(-> & -> & H) | (-> & -> & (b & z & -> & Hb))]].
  - right; right. split; [done|]. split; [done|]. eauto.
  - right; left. split; [done|]. split.
    + by sapp.
    + right. destruct H as [-> | (z & ->)]; sapp; by eexists.
  - right; right. split; [done|]. split; [by sapp|].
    sapp. eauto.
Qed.

(** The passes over elements none of which is empty. *)
Lemma agree_passes (elems : list string) :
  Forall (fun e => slash_free e = true) elems ->
  Forall (fun e => e <> "") elems ->
  forall dst first output,
    buffers_agree dst first output ->
    buffers_agree (resolvePath_passes elems (dst, first)).1
                  (resolvePath_passes elems (dst, first)).2
                  (rfc3986_passes elems output).
Proof.
  induction elems as [|e es IH]; intros Hsf Hne dst first output Hag; [done|].
  inversion Hsf; inversion Hne; subst.
  unfold resolvePath_passes, rfc3986_passes. cbn [fold_left fst snd].
  destruct (url.resolvePath_step dst first e) as [dst' first'] eqn:E.
  apply IH; [done|done|].
  replace dst' with (url.resolvePath_step dst first e).1 by (by rewrite E).
  replace first' with (url.resolvePath_step dst first e).2 by (by rewrite E).
  destruct (String.eqb_spec e ".") as [->|Hd]; [by apply agree_dot|].
  destruct (String.eqb_spec e "..") as [->|Hdd]; [by apply agree_dotdot|].
  apply agree_other; try done.
  unfold is_dot_segment. apply String.eqb_neq in Hd, Hdd. by rewrite Hd, Hdd.
Qed.

(** The end of [resolvePath] after a last dot segment. *)
Lemma finish_after_dot dst first output :
  buffers_agree dst first output ->
  (if (1 <? len (dst +:+ "/")) && bool_decide (at_ 1 (dst +:+ "/") = Some "/"%char)
   then drop 1 (dst +:+ "/") else dst +:+ "/") = output +:+ "/".
Proof.
  intros [(-> & -> & ->) | [(-> & -> & H) | (-> & -> & (a & y & -> & Ha))]].
  - done.
  - destruct H as [-> | (y & ->)]; done.
  - rewrite !sapp_cons. cbn [len String.length at_ String.get Nat.ltb Nat.leb].
    by rewrite bool_decide_eq_false_2; [|congruence].
Qed.

(** The end of [resolvePath] after a last element that is not a dot
    segment. *)
Lemma finish_at_end dst output :
  buffers_agree_at_end dst output ->
  (if (1 <? len dst) && bool_decide (at_ 1 dst = Some "/"%char)
   then drop 1 dst else dst) = output.
Proof.
  intros [(-> & y & ->) | (-> & [-> | (a & y & -> & Ha)])]; try done.
  cbn [len String.length at_ String.get].
  rewrite bool_decide_eq_false_2; [|congruence]. by rewrite andb_false_r.
Qed.

Lemma agree_at_end_other dst first output e :
  buffers_agree dst first output ->
  slash_free e = true -> is_dot_segment e = false ->
  buffers_agree_at_end (url.resolvePath_step dst first e).1 (rfc3986_pass output e).
Proof.
  intros Hag He Hdot. destruct e as [|a y].
  - cbn. destruct Hag as [(-> & -> & ->) | [(-> & -> & H) | (-> & -> & (b & z & -> & Hb))]].
    + right. split; [done|]. by left.
    + left. cbn. split; [by sapp|].
      destruct H as [-> | (z & ->)]; sapp; by eexists.
    + right. split; [by sapp|]. right. sapp. eauto.
  - pose proof (agree_other dst first output (String a y) Hag He) as H.
    specialize (H ltac:(done) Hdot).
    unfold rfc3986_pass in *. unfold is_dot_segment in Hdot.
    apply orb_false_elim in Hdot as [H1 H2]. rewrite H1, H2 in *.
    destruct H as [(_ & _ & H) | [(_ & -> & H) | (_ & -> & H)]].
    + by destruct output.
    + left. split; [done|]. destruct H as [H | H]; [by destruct output|done].
    + right. split; [done|]. by right.
Qed.

(** The end of the loop and of the function, on the last element. *)
Lemma agree_finish dst first output e :
  buffers_agree dst first output ->
  slash_free e = true ->
  resolvePath_finish (url.resolvePath_step dst first e).1 e
  = rfc3986_pass output e +:+ (if is_dot_segment e then "/" else "").
Proof.
  intros Hag He. unfold resolvePath_finish. fold (is_dot_segment e).
  destruct (is_dot_segment e) eqn:Hdot.
  - unfold is_dot_segment in Hdot. apply orb_prop in Hdot.
    eapply finish_after_dot.
    destruct Hdot as [->%String.eqb_eq | ->%String.eqb_eq].
    + by apply agree_dot.
    + by apply agree_dotdot.
  - rewrite sapp_nil_r. apply finish_at_end. by eapply agree_at_end_other.
Qed.

End Agreement.

(** * [resolvePath] is the path rule of RFC 3986 on paths without an empty
      element *)

Section PathRule.
Import gostr.

Local Ltac sapp := rewrite ?sapp_assoc, ?sapp_cons, ?sapp_nil_l, ?sapp_nil_r.

Lemma Contains_cons (c : ascii) (t sub : string) :
  strings.Contains (String c t) sub
  = String.prefix sub (String c t) || strings.Contains t sub.
Proof.
  unfold strings.Contains. cbn [strings.Index].
  destruct (String.prefix sub (String c t)); [done|].
  by destruct (strings.Index t sub).
Qed.

Lemma elements_head_empty (s : string) (es : list string) :
  elements s = "" :: es -> es <> [] -> exists t, s = String "/" t.
Proof.
  destruct s as [|c t]; [by intros [= <-]|]. cbn [elements].
  destruct (Ascii.eqb_spec c "/") as [->|_]; [eauto|].
  by destruct (elements t).
Qed.

(** Without two slashes in a row, no element between two slashes is
    empty. *)
Lemma inner_elements_nonempty (s : string) :
  strings.Contains s "//" = false ->
  Forall (fun e => e <> "") (removelast (tl (elements s))).
Proof.
  induction s as [|c t IH]; [by constructor|].
  rewrite Contains_cons. intros H. apply orb_false_elim in H as [H1 H2].
  specialize (IH H2). cbn [elements].
  destruct (Ascii.eqb_spec c "/") as [->|Hc].
  - cbn [tl]. destruct (elements t) as [|e es] eqn:E; [done|].
    destruct es as [|e' es]; [by constructor|].
    change (removelast (e :: e' :: es)) with (e :: removelast (e' :: es)).
    constructor; [|exact IH].
    intros ->. destruct (elements_head_empty t _ E) as (t' & ->); [done|].
    by rewrite !prefix_cons, prefix_nil in H1.
  - destruct (elements t) as [|e es]; [by constructor|]. exact IH.
Qed.

Lemma elements_relative_head (c : ascii) (t : string) :
  c <> "/"%char -> exists e es, elements (String c t) = String c e :: es.
Proof.
  intros Hc. cbn [elements]. apply Ascii.eqb_neq in Hc. rewrite Hc.
  destruct (elements t); eauto.
Qed.

Lemma removelast_last (l : list string) :
  l <> [] -> l = removelast l ++ [List.last l ""].
Proof. intros H. by apply app_removelast_last. Qed.

Lemma Forall_removelast (P : string -> Prop) (l : list string) :
  Forall P l -> Forall P (removelast l).
Proof.
  induction 1 as [|x l Hx Hl IH]; [constructor|].
  destruct l; [constructor|]. by constructor.
Qed.

(** The loop and the end of [resolvePath] from agreeing buffers, over
    elements of which only the last may be empty. *)
Lemma agree_run (elems : list string) dst first output :
  elems <> [] ->
  Forall (fun e => slash_free e = true) elems ->
  Forall (fun e => e <> "") (removelast elems) ->
  buffers_agree dst first output ->
  resolvePath_finish (resolvePath_passes elems (dst, first)).1 (List.last elems "")
  = rfc3986_passes elems output
    +:+ (if is_dot_segment (List.last elems "") then "/" else "").
Proof.
  intros Hne Hsf Hinner Hag.
  assert (Hlast : slash_free (List.last elems "") = true).
  { pose proof Hsf as Hsf'. rewrite (removelast_last elems Hne) in Hsf'.
    apply Forall_app in Hsf' as [_ Hl]. by inversion Hl. }
  rewrite (removelast_last elems Hne) at 1 3.
  unfold resolvePath_passes, rfc3986_passes. rewrite !fold_left_app.
  cbn [fold_left].
  pose proof (agree_passes (removelast elems) (Forall_removelast _ _ Hsf) Hinner
                _ _ _ Hag) as Hag'.
  unfold resolvePath_passes, rfc3986_passes in Hag'.
  destruct (fold_left _ (removelast elems) (dst, first)) as [dst' first'].
  cbn [fst snd] in *. by apply (agree_finish _ _ _ _ Hag').
Qed.

Lemma resolvePath_unfold (base ref : string) :
  url.resolvePath base ref
  = resolvePath_of_full
      (if is_empty ref then base
       else if negb (strings.HasPrefix ref "/") then
         match strings.LastIndex base "/" with
         | Some i => take (i + 1) base +:+ ref
         | None => ref
         end
       else ref).
Proof.
  unfold url.resolvePath, resolvePath_of_full. cbn zeta.
  destruct (is_empty _); [done|].
  rewrite resolvePath_loop_full. reflexivity.
Qed.

Lemma remove_dot_segments_rooted (p : string) :
  rfc3986.remove_dot_segments (String "/" p)
  = rfc3986_passes (elements p) ""
    +:+ (if is_dot_segment (List.last (elements p) "") then "/" else "").
Proof.
  unfold rfc3986.remove_dot_segments.
  rewrite <- (join_elements_of_elements p) at 1 2.
  apply remove_dot_segments_elements.
  - apply elements_nonempty.
  - apply elements_are_slash_free.
  - done.
Qed.

(** A rooted full path. *)
Lemma resolvePath_of_rooted (p : string) :
  strings.Contains (String "/" p) "//" = false ->
  resolvePath_of_full (String "/" p) = rfc3986.remove_dot_segments (String "/" p).
Proof.
  intros H. unfold resolvePath_of_full. cbn [is_empty elements Ascii.eqb Bool.eqb].
  rewrite (remove_dot_segments_rooted p).
  pose proof (elements_nonempty p) as Hne.
  replace (List.last ("" :: elements p) "") with (List.last (elements p) "")
    by (by destruct (elements p)).
  unfold resolvePath_passes at 1. cbn [fold_left].
  apply (agree_run (elements p) _ _ "" Hne (elements_are_slash_free p)).
  - apply inner_elements_nonempty in H. cbn [elements Ascii.eqb Bool.eqb tl] in H. exact H.
  - right; left. cbn. eauto.
Qed.

(** A full path that is not rooted: [resolvePath] writes the slash that
    the merge of RFC 3986 puts before it. *)
Lemma resolvePath_of_relative (c : ascii) (t : string) :
  c <> "/"%char ->
  strings.Contains (String c t) "//" = false ->
  resolvePath_of_full (String c t) = rfc3986.remove_dot_segments (String "/" (String c t)).
Proof.
  intros Hc H. unfold resolvePath_of_full. cbn [is_empty].
  rewrite (remove_dot_segments_rooted (String c t)).
  apply (agree_run (elements (String c t)) _ _ ""
           (elements_nonempty _) (elements_are_slash_free _)).
  - apply inner_elements_nonempty in H.
    destruct (elements_relative_head c t Hc) as (e & es & E). rewrite E in *.
    cbn [tl] in H. destruct es as [|e' es]; [constructor|].
    change (removelast (String c e :: e' :: es))
      with (String c e :: removelast (e' :: es)).
    by constructor.
  - left. eauto.
Qed.

(** [resolvePath] computes the path of the target of RFC 3986, 5.2.2, for
    a reference with a path, when the base path is rooted (or empty under
    an authority) and the merged path has no empty element. *)
Lemma resolvePath_target_path (authority : bool) (base ref : string) :
  ref <> "" ->
  String.prefix "/" base = true \/ (base = "" /\ authority = true) ->
  strings.Contains
    (if String.prefix "/" ref then ref else rfc3986.merge authority base ref) "//" = false ->
  url.resolvePath base ref = rfc3986.target_path authority base ref.
Proof.
  intros Hne Hbase Hfree. rewrite resolvePath_unfold.
  unfold rfc3986.target_path, strings.HasPrefix in *.
  destruct ref as [|c t]; [done|]. cbn [is_empty].
  rewrite prefix_cons, prefix_nil, andb_true_r in *.
  destruct (Ascii.eqb_spec "/" c) as [<-|Hc]; cbn [negb].
  - by apply resolvePath_of_rooted.
  - unfold rfc3986.merge in *.
    destruct Hbase as [Hb | [-> ->]].
    + destruct base as [|b base]; [done|].
      rewrite prefix_cons, prefix_nil, andb_true_r in Hb.
      apply Ascii.eqb_eq in Hb as <-.
      cbn [is_empty] in *. rewrite andb_false_r in *.
      rewrite LastIndex_slash_cons in *.
      destruct (strings.LastIndex base "/") as [j|];
        rewrite ?Nat.add_1_r in *; cbn [take] in *; sapp;
        rewrite ?sapp_cons in Hfree; by apply resolvePath_of_rooted.
    + cbn in Hfree |- *. apply resolvePath_of_relative; [congruence|].
      change ("/" +:+ String c t) with (String "/" (String c t)) in Hfree.
      rewrite Contains_cons in Hfree. by apply orb_false_elim in Hfree as [_ ?].
Qed.

End PathRule.

(** * The URL Resolver *)

Section Resolver.
Import gostr.

Lemma setPath_ignore_fields (u : url.URL) (p : string) :
  let r := url.setPath_ignore u p in
  url.Scheme r = url.Scheme u /\ url.Opaque r = url.Opaque u
  /\ url.User r = url.User u /\ url.Host r = url.Host u
  /\ url.ForceQuery r = url.ForceQuery u /\ url.RawQuery r = url.RawQuery u
  /\ url.Fragment r = url.Fragment u /\ url.RawFragment r = url.RawFragment u.
Proof.
  unfold url.setPath_ignore, url.setPath.
  destruct (url.unescape p url.encodePath); cbn; repeat split.
Qed.

Lemma setPath_ignore_Path (u : url.URL) (p path : string) :
  url.unescape p url.encodePath = ok path ->
  url.Path (url.setPath_ignore u p) = path.
Proof.
  intros H. unfold url.setPath_ignore, url.setPath. by rewrite H.
Qed.

Lemma escape_nonempty (s : string) (mode : url.encoding) :
  s <> "" -> url.escape s mode <> "".
Proof.
  destruct s as [|c t]; [done|]. intros _. cbn [url.escape].
  destruct (_ && _); [done|]. by destruct (url.shouldEscape c mode).
Qed.

Lemma EscapedPath_nonempty (u : url.URL) :
  url.Path u <> "" -> url.EscapedPath u <> "".
Proof.
  intros H. unfold url.EscapedPath.
  destruct (url.RawPath u) as [|c t] eqn:E.
  - cbn [is_empty negb andb]. destruct (String.eqb _ _); [done|].
    by apply escape_nonempty.
  - destruct (_ && _ && _); [done|]. destruct (String.eqb _ _); [done|].
    by apply escape_nonempty.
Qed.

(** [url.Parse] of the empty string is the zero URL. *)
Lemma Parse_empty : url.Parse "" = ok url.zero.
Proof. reflexivity. Qed.

(** Lines 76-85 on a source that parses. *)
Lemma resolve_parsed (base : url.URL) (raw : string) (ref : url.URL) :
  raw <> "" -> url.Parse raw = ok ref ->
  resolve base raw = Absolute (url.ResolveReference base ref).
Proof.
  intros Hne Hp. unfold resolve, url.URL_Parse.
  apply is_empty_false in Hne. by rewrite Hne, Hp.
Qed.

(** [ResolveReference] on a reference with a scheme: the base is not
    looked at. *)
Lemma ResolveReference_absolute (base ref : url.URL) :
  url.Scheme ref <> "" ->
  url.ResolveReference base ref
  = url.setPath_ignore ref (url.resolvePath (url.EscapedPath ref) "").
Proof.
  intros H. unfold url.ResolveReference. apply is_empty_false in H. rewrite H.
  cbn [negb orb]. by destruct ref.
Qed.

(** [ResolveReference] on a reference that has a path but no scheme and
    no authority. *)
Lemma ResolveReference_relative (base ref : url.URL) :
  url.Scheme ref = "" -> url.Opaque ref = "" ->
  url.Host ref = "" -> url.User ref = None -> url.Path ref <> "" ->
  url.ResolveReference base ref
  = url.setPath_ignore (inherit_authority base ref)
      (url.resolvePath (url.EscapedPath base) (url.EscapedPath ref)).
Proof.
  intros Hs Ho Hh Hu Hp. unfold url.ResolveReference, url.has_user, inherit_authority.
  apply is_empty_false in Hp. rewrite Hs, Ho, Hh, Hu, Hp. reflexivity.
Qed.

End Resolver.

(** * A source with a trailing slash: [weird/path/] *)

Section TrailingSlash.
Import gostr.

Local Ltac sapp := rewrite ?sapp_assoc, ?sapp_cons, ?sapp_nil_l, ?sapp_nil_r.

Local Ltac case_if_in H :=
  match type of H with
  | context [if ?b then _ else _] => destruct b; [discriminate H|]
  end.

Lemma LastIndex1_at (s : string) (ch : ascii) (i : nat) :
  strings.LastIndex s (String ch "") = Some i -> at_ i s = Some ch.
Proof.
  revert i. induction s as [|a s IH]; intros i H; cbn [strings.LastIndex] in H; [done|].
  destruct (strings.LastIndex s (String ch "")) as [j|].
  - inversion H; subst. cbn. by apply IH.
  - rewrite prefix1 in H. destruct (Ascii.eqb_spec ch a) as [->|]; by inversion H.
Qed.

Lemma take_succ_at (s : string) (c : ascii) (i : nat) :
  at_ i s = Some c -> take (i + 1) s = take i s +:+ String c "".
Proof.
  revert i. induction s as [|a s IH]; intros i H; [by destruct i|].
  destruct i as [|i]; cbn in H.
  - inversion H; subst. by destruct s.
  - cbn [Nat.add take]. sapp. by rewrite (IH i H).
Qed.

Lemma elements_app_slash (a b : string) :
  elements (a +:+ String "/" b) = elements a ++ elements b.
Proof.
  induction a as [|c a IH]; [done|]. sapp. cbn [elements]. rewrite IH.
  destruct (Ascii.eqb c "/"); [done|].
  pose proof (elements_nonempty a). by destruct (elements a).
Qed.

Lemma builder_rooted_step (dst : string) (first : bool) (elem : string) :
  builder_rooted (dst, first) -> builder_rooted (url.resolvePath_step dst first elem).
Proof.
  intros (d & Hd & Hf). cbn [fst snd] in *. subst dst.
  unfold url.resolvePath_step.
  destruct (String.eqb elem "."); [by exists d|].
  destruct (String.eqb elem "..").
  - cbn [drop]. destruct (strings.LastIndex d "/") as [j|] eqn:E.
    + exists (take j d). split; [done|]. cbn. intros ->. rewrite Hf in E; done.
    + by exists "".
  - destruct first; sapp; eexists; split; try done.
Qed.

Lemma builder_rooted_passes (elems : list string) (st : string * bool) :
  builder_rooted st -> builder_rooted (resolvePath_passes elems st).
Proof.
  revert st. induction elems as [|e es IH]; intros [dst first] H; [done|].
  apply IH. by apply builder_rooted_step.
Qed.

(** The three last passes and the end of [resolvePath]. *)
Lemma resolvePath_ends_weird_path (st : string * bool) :
  builder_rooted st ->
  exists X, resolvePath_finish (resolvePath_passes ["weird"; "path"; ""] st).1 ""
            = X +:+ "/weird/path/".
Proof.
  destruct st as [dst first]. intros (d & Hd & Hf). cbn [fst snd] in *. subst dst.
  destruct first.
  - rewrite Hf by done. by exists "".
  - unfold resolvePath_passes, resolvePath_finish. cbn [fold_left fst snd].
    unfold url.resolvePath_step. cbn [String.eqb Ascii.eqb Bool.eqb orb fst snd].
    sapp. destruct (_ && _).
    + by exists d.
    + exists (String "/" d). by sapp.
Qed.

(** The resolved path of the source [weird/path/] ends with it, whatever
    the base path. *)
Lemma resolvePath_weird_path (base : string) :
  exists X, url.resolvePath base "weird/path/" = X +:+ "/weird/path/".
Proof.
  rewrite resolvePath_unfold. cbn [is_empty strings.HasPrefix String.prefix].
  cbn [negb]. change (if ascii_dec "/" "w" then _ else false) with false. cbn [negb].
  destruct (strings.LastIndex base "/") as [i|] eqn:E.
  - rewrite (take_succ_at base "/" i (LastIndex1_at _ _ _ E)). sapp.
    unfold resolvePath_of_full. rewrite is_empty_app. cbn [is_empty andb].
    rewrite andb_false_r.
    rewrite elements_app_slash.
    change (elements "weird/path/") with ["weird"; "path"; ""].
    replace (List.last (elements (take i base) ++ ["weird"; "path"; ""]) "") with ""
      by (by rewrite (app_assoc _ ["weird"; "path"] [""]), last_last).
    unfold resolvePath_passes at 1. rewrite fold_left_app.
    apply resolvePath_ends_weird_path, builder_rooted_passes. by exists "".
  - by exists "".
Qed.

(** Unescaping goes through a slash: what precedes it decodes on its
    own. *)
Lemma unescape_decode_before_slash (mode : url.encoding) (s : string) (n : nat) :
  forall X, len X <= n ->
    url.unescape_check (X +:+ String "/" s) mode = None ->
    url.unescape_decode (X +:+ String "/" s) mode
    = url.unescape_decode X mode +:+ url.unescape_decode (String "/" s) mode.
Proof.
  set (R := url.unescape_decode (String "/" s) mode).
  induction n as [|n IH]; intros X Hn Hc.
  { destruct X; [done | unfold len in *; cbn [String.length] in *; lia]. }
  destruct X as [|c X]; [done|].
  change (String c X +:+ String "/" s) with (String c (X +:+ String "/" s)) in *.
  cbn [url.unescape_check url.unescape_decode] in Hc |- *.
  destruct (Ascii.eqb c "%").
  - destruct X as [|a [|b X]].
    + change ("" +:+ String "/" s) with (String "/" s) in *.
      destruct s; cbn in Hc; discriminate Hc.
    + change (String a "" +:+ String "/" s) with (String a (String "/" s)) in *.
      replace (url.ishex "/") with false in Hc by reflexivity.
      cbn [negb] in Hc. rewrite orb_true_r in Hc. discriminate Hc.
    + change (String a (String b X) +:+ String "/" s)
        with (String a (String b (X +:+ String "/" s))) in *.
      cbv beta iota in Hc |- *.
      do 3 case_if_in Hc.
      sapp. f_equal. apply IH; [unfold len in *; cbn [String.length] in *; lia | done].
  - destruct (Ascii.eqb c "+").
    + sapp. f_equal. apply IH; [unfold len in *; cbn [String.length] in *; lia | done].
    + case_if_in Hc.
      sapp. f_equal. apply IH; [unfold len in *; cbn [String.length] in *; lia | done].
Qed.

Lemma slash_free_snoc (e : string) (c : ascii) :
  slash_free (e +:+ String c "") = slash_free e && negb (Ascii.eqb c "/").
Proof.
  induction e as [|a e IH]; [by rewrite sapp_nil_l, andb_comm|].
  sapp. cbn [slash_free]. by rewrite IH, andb_assoc.
Qed.

Lemma final_segment_after_slash (d e : string) :
  slash_free e = true -> final_segment (d +:+ String "/" e) = e.
Proof.
  induction e as [|e c IH] using snoc_ind; intros H.
  - by rewrite final_segment_snoc.
  - rewrite slash_free_snoc in H. apply andb_prop in H as [H1 H2].
    apply negb_true_iff in H2.
    rewrite <- sapp_cons, <- sapp_assoc, final_segment_snoc, H2.
    by rewrite (IH H1).
Qed.

(** The base name of a path that ends in a slash after a last element. *)
Lemma Base_before_trailing_slash (d e : string) :
  slash_free e = true -> e <> "" ->
  filepath.Base (d +:+ String "/" (e +:+ "/")) = e.
Proof.
  intros He Hne. rewrite Base_spec, is_empty_app. cbn [is_empty andb].
  rewrite andb_false_r. cbn zeta.
  change (e +:+ "/") with (e +:+ String "/" "").
  rewrite <- sapp_cons, <- sapp_assoc, trim_trailing_slashes_snoc. cbn [Ascii.eqb Bool.eqb].
  destruct (snoc_cases e) as [-> | (e' & c & ->)]; [done|].
  rewrite slash_free_snoc in He. apply andb_prop in He as [H1 H2].
  apply negb_true_iff in H2.
  rewrite <- sapp_cons, <- sapp_assoc, trim_trailing_slashes_snoc, H2.
  rewrite sapp_assoc, sapp_cons, final_segment_after_slash.
  - by rewrite is_empty_snoc.
  - by rewrite slash_free_snoc, H1, H2.
Qed.

(** The name of the file for the source [weird/path/]. *)
Lemma deriveName_weird_path (base : url.URL) (i : nat) :
  deriveName
    (url.Path (url.setPath_ignore (inherit_authority base (path_only "weird/path/"))
                 (url.resolvePath (url.EscapedPath base) "weird/path/"))) i
  = "path".
Proof.
  destruct (resolvePath_weird_path (url.EscapedPath base)) as (X & ->).
  unfold url.setPath_ignore, url.setPath, url.unescape.
  destruct (url.unescape_check _ _) eqn:E; [done|].
  cbn [res_bind url.Path].
  rewrite (unescape_decode_before_slash _ _ (len X) X (le_n _) E).
  change (url.unescape_decode "/weird/path/" url.encodePath) with "/weird/path/".
  rewrite deriveName_cases.
  change "/weird/path/" with ("/weird" +:+ String "/" ("path" +:+ "/")).
  rewrite <- sapp_assoc, Base_before_trailing_slash; done.
Qed.

End TrailingSlash.

(** * The claims about the URL Resolver *)

(** C4, as the code has it. For every raw source string that parses to a
    URL with a scheme, and every base URL, [resolve] gives a result that
    does not depend on the base: it is the URL of the raw string, with its
    own scheme, user, host, query and fragment, and with the dot segments
    of its path removed ([resolvePath] of its escaped path). *)
Theorem C4_absolute_ignores_base
    (base1 base2 : url.URL) (raw : string) (ref : url.URL) :
  url.Parse raw = ok ref ->
  url.Scheme ref <> "" ->
  let r := url.setPath_ignore ref (url.resolvePath (url.EscapedPath ref) "") in
  resolve base1 raw = Absolute r
  /\ resolve base2 raw = resolve base1 raw
  /\ url.Scheme r = url.Scheme ref /\ url.User r = url.User ref
  /\ url.Host r = url.Host ref /\ url.Opaque r = url.Opaque ref
  /\ url.RawQuery r = url.RawQuery ref /\ url.Fragment r = url.Fragment ref.
Proof.
  intros Hp Hs r.
  assert (Hne : raw <> "").
  { intros ->. rewrite Parse_empty in Hp. by inversion Hp; subst. }
  rewrite !(resolve_parsed _ raw ref Hne Hp), !ResolveReference_absolute by done.
  destruct (setPath_ignore_fields ref (url.resolvePath (url.EscapedPath ref) ""))
    as (? & ? & ? & ? & ? & ? & ? & ?).
  by repeat split.
Qed.

Lemma C4_witness :
  resolve sample_base "http://other.test/b.jpg" = Absolute (other_test "/b.jpg")
  /\ resolve (ex_com "/a/b") "http://other.test/b.jpg"
     = resolve sample_base "http://other.test/b.jpg".
Proof.
  destruct (C4_absolute_ignores_base sample_base (ex_com "/a/b")
              "http://other.test/b.jpg" (other_test "/b.jpg"))
    as (H1 & H2 & _); [reflexivity | discriminate |].
  split; [exact H1 | exact H2].
Defined.

(** C4, as it is written, fails: the absolute raw string
    [http://other.test/a/../b.jpg] does not come back unchanged, it comes
    back as [http://other.test/b.jpg]. *)
Lemma C4_counterexample : ~ resolve_keeps_absolute_unchanged.
Proof.
  intros H.
  specialize (H sample_page "http://other.test/a/../b.jpg"
                sample_base (other_test "/a/../b.jpg")).
  specialize (H eq_refl eq_refl ltac:(discriminate)).
  vm_compute in H. discriminate H.
Qed.

(** C3, as the code has it. For every base URL whose escaped path is
    rooted (or empty under an authority) and every raw source string that
    parses to a reference with a path and without scheme and authority,
    when the merged path has no empty element (no two slashes in a row),
    [resolve] returns the reference with the scheme, the user and the host
    of the base, its own query and fragment, and as path the one that RFC
    3986 prescribes (5.2.2: merge with the base path, then remove the dot
    segments); in particular [../c.png] against [https://ex.com/a/b] is
    [https://ex.com/c.png]. *)
Theorem C3_relative_resolution (base : url.URL) (raw : string) (ref : url.URL) :
  url.Parse raw = ok ref ->
  url.Scheme ref = "" -> url.Opaque ref = "" ->
  url.Host ref = "" -> url.User ref = None ->
  url.Path ref <> "" ->
  String.prefix "/" (url.EscapedPath base) = true
    \/ (url.EscapedPath base = "" /\ has_authority base = true) ->
  strings.Contains
    (if String.prefix "/" (url.EscapedPath ref) then url.EscapedPath ref
     else rfc3986.merge (has_authority base) (url.EscapedPath base) (url.EscapedPath ref))
    "//" = false ->
  let target :=
    rfc3986.target_path (has_authority base) (url.EscapedPath base) (url.EscapedPath ref) in
  let r := url.setPath_ignore (inherit_authority base ref) target in
  resolve base raw = Absolute r
  /\ url.Scheme r = url.Scheme base /\ url.User r = url.User base
  /\ url.Host r = url.Host base
  /\ url.RawQuery r = url.RawQuery ref /\ url.Fragment r = url.Fragment ref
  /\ (forall path, url.unescape target url.encodePath = ok path -> url.Path r = path)
  /\ resolve_text "https://ex.com/a/b" "../c.png" = Some "https://ex.com/c.png".
Proof.
  intros Hp Hs Ho Hh Hu Hpath Hbase Hfree target r.
  assert (Hne : raw <> "").
  { intros ->. rewrite Parse_empty in Hp. by inversion Hp; subst. }
  rewrite (resolve_parsed _ raw ref Hne Hp), ResolveReference_relative by done.
  rewrite (resolvePath_target_path (has_authority base)) by
    (try done; by apply EscapedPath_nonempty).
  fold target. fold r.
  destruct (setPath_ignore_fields (inherit_authority base ref) target)
    as (? & ? & ? & ? & ? & ? & ? & ?).
  repeat split; try done.
  intros path Hun. by apply setPath_ignore_Path.
Qed.

Lemma C3_witness :
  resolve (ex_com "/a/b") "../c.png" = Absolute (ex_com "/c.png").
Proof.
  destruct (C3_relative_resolution (ex_com "/a/b") "../c.png" (path_only "../c.png"))
    as (H & _);
    [reflexivity | reflexivity | reflexivity | reflexivity | reflexivity
    | discriminate | by left | reflexivity | exact H].
Defined.

(** C3, as it is written, fails: against [https://ex.com/a] the reference
    [..//x.png] resolves to [https://ex.com/x.png], where the algorithm of
    RFC 3986 gives [https://ex.com//x.png]. *)
Lemma C3_counterexample : ~ resolve_is_rfc3986_on_relative.
Proof.
  intros H.
  specialize (H "https://ex.com/a" "..//x.png" (ex_com "/a") (path_only "..//x.png")).
  specialize (H eq_refl ltac:(discriminate) ltac:(discriminate) eq_refl eq_refl).
  vm_compute in H. discriminate H.
Qed.

(** C7, as the code has it. For an [img] entry whose [src] is
    [weird/path/], at index 0 as at any index and against any base URL,
    the source resolves and the derived file name is exactly [path]: the
    base name of a path is taken after its trailing slashes are removed,
    so the fallback does not apply. *)
Theorem C7_trailing_slash_name (base : url.URL) (i : nat) :
  entry_fileName base "weird/path/" i = Some "path"
  /\ entry_fileName base "weird/path/" 0 = Some "path".
Proof.
  assert (H : forall j, entry_fileName base "weird/path/" j = Some "path"); [|by split].
  intros j. unfold entry_fileName.
  rewrite (resolve_parsed base "weird/path/" (path_only "weird/path/")) by done.
  rewrite ResolveReference_relative by done.
  change (url.EscapedPath (path_only "weird/path/")) with "weird/path/".
  by rewrite deriveName_weird_path.
Qed.

(** C7, as it is written, fails: on the page [https://site.test/page] the
    [img] with [src="weird/path/"] at index 0 is saved under the name
    [path], not [image_1.jpg]. *)
Lemma C7_counterexample :
  entry_fileName sample_base "weird/path/" 0 <> Some "image_1.jpg".
Proof. vm_compute. discriminate. Qed.

(** * Further properties of the code *)

(** ** [main]: the fatal paths and the exit status *)



(** ** [getChromeProfileDir] *)

Lemma Clean_nonempty (path : string) : filepath.Clean path <> "".
Proof.
  unfold filepath.Clean. destruct path as [|c t]; [done|].
  destruct (filepath.IsPathSeparator c);
    by destruct (filepath.Clean_loop _ _ _ _ _).
Qed.

Lemma filepath_Join_all_nonempty (elem : list string) :
  Exists (fun e => e <> "") elem -> filepath_Join_all elem <> "".
Proof.
  induction elem as [|e rest IH]; intros H; [by inversion H|].
  cbn [filepath_Join_all]. destruct e as [|c e]; cbn [gostr.is_empty].
  - apply IH. by inversion H.
  - apply Clean_nonempty.
Qed.

Lemma Join_is_Join_all (dir name : string) :
  filepath.Join dir name = filepath_Join_all [dir; name].
Proof.
  unfold filepath.Join. destruct dir as [|c d]; [|done].
  by destruct name.
Qed.

(** X2. When the home directory cannot be determined, [getChromeProfileDir]
    logs the error and returns the empty string on every operating system,
    also on Windows where the directory would come from [LOCALAPPDATA]; in
    a run that gets through its other steps, [main] then logs the warning
    first, starts the browser with the default profile and still exits with
    status 0. *)
Theorem profile_dir_without_home
    (m : Machine) (err : error) (env : Env) (pageURL outDir : string) (fs : FS)
    (base : url.URL) (imgSrcs : list string) :
  os_UserHomeDir m = fail err ->
  chromeProfileDir env = (getChromeProfileDir m).2 ->
  pageURL <> "" -> outDir <> "" ->
  os_MkdirAll env outDir = None ->
  url.Parse pageURL = ok base ->
  chromedp_Run env pageURL = ok imgSrcs ->
  getChromeProfileDir m = (Some err, "")
  /\ exit_code (main env pageURL outDir fs) = 0
  /\ trace (main env pageURL outDir fs)
     = Log_NoProfileDir :: (loop env base outDir 0 imgSrcs fs).1.
Proof.
  intros Hh Hd Hp Ho Hm Hb Hc.
  assert (Hg : getChromeProfileDir m = (Some err, "")).
  { unfold getChromeProfileDir. by rewrite Hh. }
  split; [done|].
  rewrite (main_reaches_loop env pageURL outDir fs base imgSrcs Hp Ho Hm Hb Hc).
  cbn [exit_code trace]. by rewrite Hd, Hg.
Qed.

Lemma profile_dir_without_home_witness :
  getChromeProfileDir homeless_machine
    = (Some (LibraryError "$HOME is not defined"), "")
  /\ exit_code (main homeless_env sample_page "out" ∅) = 0.
Proof.
  destruct (profile_dir_without_home homeless_machine
              (LibraryError "$HOME is not defined") homeless_env sample_page "out" ∅
              sample_base
              ["/a.png"; ""; "%zz"; "http://other.test/missing.jpg"; "http://other.test/b.jpg"])
    as (H1 & H2 & _);
    [reflexivity | reflexivity | done | done | reflexivity | reflexivity | reflexivity |].
  split; [exact H1 | exact H2].
Defined.

(** X3. On Linux and on macOS, with a home directory and the library's
    POSIX [filepath.Join], [getChromeProfileDir] logs nothing and returns a
    directory that is not empty, so that [main] passes it to the browser and
    logs no warning. *)
Theorem profile_dir_on_posix (m : Machine) (home : string) :
  os_UserHomeDir m = ok home ->
  runtime_GOOS m = "linux" \/ runtime_GOOS m = "darwin" ->
  filepath_Join m = filepath_Join_all ->
  (getChromeProfileDir m).1 = None
  /\ (getChromeProfileDir m).2 <> ""
  /\ gostr.is_empty (getChromeProfileDir m).2 = false.
Proof.
  intros Hh Hos Hj. unfold getChromeProfileDir. rewrite Hh, Hj. cbn [fst snd].
  split; [done|].
  assert (H : (if String.eqb (runtime_GOOS m) "windows" then
                 if gostr.is_empty (LOCALAPPDATA m) then ""
                 else filepath_Join_all
                        [LOCALAPPDATA m; "Google"; "Chrome"; "User Data"; "Default"]
               else if String.eqb (runtime_GOOS m) "darwin" then
                 filepath_Join_all
                   [home; "Library"; "Application Support"; "Google"; "Chrome"; "Default"]
               else if String.eqb (runtime_GOOS m) "linux" then
                 filepath_Join_all [home; ".config"; "google-chrome"; "Default"]
               else "") <> "").
  { destruct Hos as [-> | ->]; cbn [String.eqb Ascii.eqb Bool.eqb];
      apply filepath_Join_all_nonempty; apply Exists_cons_tl, Exists_cons_hd; done. }
  split; [exact H|]. by apply is_empty_false.
Qed.

Lemma profile_dir_on_posix_witness :
  (getChromeProfileDir linux_machine).2 = "/home/user/.config/google-chrome/Default".
Proof.
  destruct (profile_dir_on_posix linux_machine "/home/user") as (_ & H & _);
    [reflexivity | by left | reflexivity |].
  vm_compute. reflexivity.
Defined.

(** ** The derived file name *)

Section FileNames.
Import gostr.

Local Ltac sapp := rewrite ?sapp_assoc, ?sapp_cons, ?sapp_nil_l, ?sapp_nil_r.

Lemma slash_free_app (a b : string) :
  slash_free (a +:+ b) = slash_free a && slash_free b.
Proof.
  induction a as [|c a IH]; [done|]. sapp. cbn [slash_free]. by rewrite IH, andb_assoc.
Qed.

Lemma slash_free_drop (s : string) (i : nat) :
  slash_free s = true -> slash_free (drop i s) = true.
Proof.
  revert i. induction s as [|c s IH]; intros [|i] H; try done.
  cbn in H |- *. apply andb_prop in H as [_ H]. by apply IH.
Qed.

Lemma drop_at (s : string) (c : ascii) (i : nat) :
  at_ i s = Some c -> drop i s = String c (drop (S i) s).
Proof.
  revert i. induction s as [|a s IH]; intros [|i] H; try done.
  - cbn in H. by inversion H.
  - cbn in H |- *. by apply IH.
Qed.

Lemma final_segment_slash_free (path : string) : slash_free (final_segment path) = true.
Proof.
  induction path as [|s c IH] using snoc_ind; [done|].
  rewrite final_segment_snoc. destruct (Ascii.eqb c "/") eqn:E; [done|].
  by rewrite slash_free_snoc, IH, E.
Qed.

Lemma Ext_slash_free (path : string) : slash_free (filepath.Ext path) = true.
Proof.
  rewrite Ext_spec. unfold extension_of.
  destruct (strings.LastIndex _ _); [|done].
  apply slash_free_drop, final_segment_slash_free.
Qed.

Lemma Ext_starts_with_dot (path : string) :
  filepath.Ext path = "" \/ exists t, filepath.Ext path = String "." t.
Proof.
  rewrite Ext_spec. unfold extension_of.
  destruct (strings.LastIndex _ _) as [i|] eqn:E; [right | by left].
  apply LastIndex1_at in E. rewrite (drop_at _ _ _ E). eauto.
Qed.

Lemma getFileExtension_shape (path : string) :
  exists t, getFileExtension path = String "." t /\ slash_free t = true.
Proof.
  unfold getFileExtension. pose proof (Ext_slash_free path) as Hs.
  destruct (Ext_starts_with_dot path) as [-> | (t & Ht)].
  - by exists "jpg".
  - rewrite Ht in *. cbn [is_empty]. exists t. split; [done|].
    cbn in Hs. exact Hs.
Qed.

Lemma digits_slash_free (d : string) : url.all_digits d = true -> slash_free d = true.
Proof.
  induction d as [|c d IH]; [done|]. cbn. intros H.
  apply andb_prop in H as [H1 H2]. rewrite (IH H2), andb_true_r.
  destruct (Ascii.eqb_spec c "/") as [->|_]; done.
Qed.

Lemma NilEmpty_digits (d : uint) : url.all_digits (NilEmpty.string_of_uint d) = true.
Proof. induction d; cbn; try done; by rewrite IHd. Qed.

Lemma fmt_d_digits (n : nat) : url.all_digits (fmt_d n) = true.
Proof.
  unfold fmt_d, NilZero.string_of_uint.
  destruct (Nat.to_uint n) eqn:E; try done;
    rewrite <- E; apply NilEmpty_digits.
Qed.

Lemma to_uint_not_Nil (n : nat) : Nat.to_uint n <> Nil.
Proof.
  intros H. pose proof (Unsigned.of_to n) as Hn. rewrite H in Hn.
  cbn in Hn. subst n. discriminate H.
Qed.

Lemma fmt_d_inj (n m : nat) : fmt_d n = fmt_d m -> n = m.
Proof.
  unfold fmt_d. intros H. apply Unsigned.to_uint_inj.
  pose proof (NilZero.usu _ (to_uint_not_Nil n)) as Hn.
  pose proof (NilZero.usu _ (to_uint_not_Nil m)) as Hm.
  rewrite H in Hn. rewrite Hn in Hm. by inversion Hm.
Qed.

Lemma Base_slash_free (path : string) :
  filepath.Base path = "/" \/ slash_free (filepath.Base path) = true.
Proof.
  rewrite Base_spec. destruct (is_empty path); [by right|]. cbn zeta.
  destruct (is_empty (final_segment _)) eqn:E; [by left | right].
  apply final_segment_slash_free.
Qed.

(** The digits before a dot are determined by the whole string. *)
Lemma digits_then_dot_inj (d d' e e' : string) :
  url.all_digits d = true -> url.all_digits d' = true ->
  d +:+ String "." e = d' +:+ String "." e' -> d = d'.
Proof.
  revert d'. induction d as [|c d IH]; intros [|c' d'] Hd Hd' H; try done.
  - rewrite sapp_nil_l, sapp_cons in H. inversion H; subst. done.
  - rewrite sapp_nil_l, sapp_cons in H. inversion H; subst. done.
  - rewrite !sapp_cons in H. inversion H; subst.
    cbn in Hd, Hd'. apply andb_prop in Hd as [_ Hd]. apply andb_prop in Hd' as [_ Hd'].
    f_equal. by apply (IH d').
Qed.

End FileNames.

Lemma derived_name_parts (path : string) (i : nat) :
  deriveName path i <> "" /\ slash_free (deriveName path i) = true.
Proof.
  rewrite deriveName_cases. unfold synthesized_name.
  destruct (getFileExtension_shape path) as (t & -> & Ht).
  destruct (String.eqb _ "/" || String.eqb _ ".") eqn:E.
  - split; [done|].
    rewrite !slash_free_app, (digits_slash_free _ (fmt_d_digits _)). cbn. exact Ht.
  - split; [apply Base_nonempty|].
    destruct (Base_slash_free path) as [H | H]; [|done].
    rewrite H in E. done.
Qed.

(** X4. The derived file name is never empty and never contains a slash:
    it names one directory entry, whatever the path of the URL is. *)
Theorem deriveName_is_one_element (path : string) (i : nat) :
  deriveName path i <> "" /\ slash_free (deriveName path i) = true.
Proof. apply derived_name_parts. Qed.

(** X5. [getFileExtension] always returns a dot followed by bytes without
    slash: the default [.jpg] or the extension found. *)
Theorem getFileExtension_starts_with_dot (path : string) :
  exists t, getFileExtension path = String "." t /\ slash_free t = true.
Proof. apply getFileExtension_shape. Qed.

(** X6. The synthesized names of two entries at different indices are
    different, whatever their URL paths and extensions: a collision of
    file names never involves two fallback names. *)
Theorem synthesized_names_differ (path path' : string) (i j : nat) :
  "image_" +:+ fmt_d (i + 1) +:+ getFileExtension path
  = "image_" +:+ fmt_d (j + 1) +:+ getFileExtension path' ->
  i = j.
Proof.
  intros H.
  destruct (getFileExtension_shape path) as (t & Ht & _).
  destruct (getFileExtension_shape path') as (t' & Ht' & _).
  rewrite Ht, Ht' in H.
  change ("image_" +:+ ?x) with (String "i" (String "m" (String "a" (String "g"
            (String "e" (String "_" x)))))) in H.
  inversion H as [H'].
  apply digits_then_dot_inj in H'; try apply fmt_d_digits.
  apply fmt_d_inj in H'. lia.
Qed.

Lemma synthesized_names_differ_witness :
  "image_" +:+ fmt_d (0 + 1) +:+ getFileExtension "/"
  = "image_" +:+ fmt_d (0 + 1) +:+ getFileExtension "/a.d/" /\ 0 = 0.
Proof.
  split; [reflexivity|].
  apply (synthesized_names_differ "/" "/a.d/" 0 0). reflexivity.
Defined.

(** ** Escaping and unescaping *)

Section Escaping.
Import gostr.

(** One byte, escaped and followed by anything, is checked and decoded on
    its own. *)
Lemma unescape_escape_byte (mode : url.encoding) (c : ascii) (r : string) :
  mode <> url.encodeHost -> mode <> url.encodeZone ->
  url.unescape_check (url.escape (String c "") mode +:+ r) mode
    = url.unescape_check r mode
  /\ url.unescape_decode (url.escape (String c "") mode +:+ r) mode
    = String c (url.unescape_decode r mode).
Proof.
  intros Hh Hz.
  destruct mode; try done;
    destruct c as [[] [] [] [] [] [] [] []]; split; reflexivity.
Qed.

Lemma escape_cons (mode : url.encoding) (c : ascii) (t : string) :
  url.escape (String c t) mode = url.escape (String c "") mode +:+ url.escape t mode.
Proof.
  cbn [url.escape]. destruct (_ && _); [done|].
  by destruct (url.shouldEscape c mode).
Qed.

Lemma unescape_escape_parts (mode : url.encoding) (s : string) :
  mode <> url.encodeHost -> mode <> url.encodeZone ->
  url.unescape_check (url.escape s mode) mode = None
  /\ url.unescape_decode (url.escape s mode) mode = s.
Proof.
  intros Hh Hz. induction s as [|c s [IH1 IH2]]; [done|].
  rewrite escape_cons.
  destruct (unescape_escape_byte mode c (url.escape s mode) Hh Hz) as [-> ->].
  by rewrite IH1, IH2.
Qed.

End Escaping.

(** X7. Unescaping undoes escaping: in every mode but the host and zone
    modes, what [escape] writes is accepted by [unescape] and decodes to the
    bytes that went in. *)
Theorem unescape_escape (mode : url.encoding) (s : string) :
  mode <> url.encodeHost -> mode <> url.encodeZone ->
  url.unescape (url.escape s mode) mode = ok s.
Proof.
  intros Hh Hz. unfold url.unescape.
  destruct (unescape_escape_parts mode s Hh Hz) as [-> ->]. reflexivity.
Qed.

Lemma unescape_escape_witness :
  url.escape "a b/c%?+d" url.encodePath = "a%20b/c%25%3F+d"
  /\ url.unescape "a%20b/c%25%3F+d" url.encodePath = ok "a b/c%?+d".
Proof.
  split; [reflexivity|].
  apply (unescape_escape url.encodePath "a b/c%?+d"); discriminate.
Defined.

(** X8. [setPath] keeps the encoding it is given: when [setPath(p)]
    succeeds on a validly encoded [p] and the decoded path is not the lone
    asterisk, [EscapedPath] of the result is [p] again and [Path] is [p]
    unescaped. *)
Theorem setPath_EscapedPath (u u' : url.URL) (p : string) :
  url.setPath u p = ok u' ->
  url.validEncoded p url.encodePath = true ->
  url.Path u' <> "*" ->
  url.EscapedPath u' = p /\ url.unescape p url.encodePath = ok (url.Path u').
Proof.
  unfold url.setPath. destruct (url.unescape p url.encodePath) as [path|e] eqn:E; [|done].
  cbn [res_bind]. intros [= <-] Hv Hstar. cbn [url.Path] in *. split; [|done].
  unfold url.EscapedPath. cbn [url.Path url.RawPath].
  destruct (String.eqb_spec p (url.escape path url.encodePath)) as [Heq|Hne].
  - cbn [gostr.is_empty negb andb].
    apply String.eqb_neq in Hstar. by rewrite Hstar.
  - assert (Hp : gostr.is_empty p = false).
    { destruct p; [|done]. cbn in E. inversion E; subst. done. }
    by rewrite Hp, Hv, E, String.eqb_refl.
Qed.

Lemma setPath_EscapedPath_witness :
  url.setPath (other_test "") "/a%2fb" <> fail (url.EscapeError "")
  /\ url.EscapedPath {| url.Scheme := "http"; url.Opaque := ""; url.User := None;
                        url.Host := "other.test"; url.Path := "/a/b"; url.RawPath := "/a%2fb";
                        url.OmitHost := false; url.ForceQuery := false; url.RawQuery := "";
                        url.Fragment := ""; url.RawFragment := "" |} = "/a%2fb".
Proof.
  split; [discriminate|].
  apply (setPath_EscapedPath (other_test "") _ "/a%2fb"); [reflexivity | reflexivity | discriminate].
Defined.

(** ** [resolvePath]: the shape of the result *)

Section NormalForm.
Import gostr.

Local Ltac sapp := rewrite ?sapp_assoc, ?sapp_cons, ?sapp_nil_l, ?sapp_nil_r.

Lemma split_at (s : string) (c : ascii) (i : nat) :
  at_ i s = Some c -> s = take i s +:+ String c (drop (S i) s).
Proof.
  intros H. rewrite <- (drop_at _ _ _ H). symmetry. apply take_drop.
Qed.

Lemma no_dot_elements_take (d : string) (i : nat) :
  strings.LastIndex d "/" = Some i -> no_dot_elements d -> no_dot_elements (take i d).
Proof.
  intros H Hd. apply LastIndex1_at in H. unfold no_dot_elements in *.
  rewrite (split_at d "/" i H), elements_app_slash in Hd.
  by apply Forall_app in Hd as [? _].
Qed.

Lemma builder_clean_step (dst : string) (first : bool) (elem : string) :
  slash_free elem = true ->
  builder_clean (dst, first) -> builder_clean (url.resolvePath_step dst first elem).
Proof.
  intros He (d & Hd & Hn & Hf). cbn [fst snd] in *. subst dst.
  unfold url.resolvePath_step.
  destruct (String.eqb elem ".") eqn:E1; [by exists d|].
  destruct (String.eqb elem "..") eqn:E2.
  - cbn [drop]. destruct (strings.LastIndex d "/") as [j|] eqn:E.
    + exists (take j d). split; [done|]. split; [by apply no_dot_elements_take|].
      cbn. intros ->. rewrite Hf in E; done.
    + exists "". split; [done|]. split; [|done]. by repeat constructor.
  - assert (Hdot : is_dot_segment elem = false) by (unfold is_dot_segment; by rewrite E1, E2).
    destruct first.
    + rewrite Hf by done. exists elem. sapp. split; [done|]. split; [|done].
      unfold no_dot_elements. rewrite (elements_slash_free _ He). by repeat constructor.
    + exists (d +:+ String "/" elem). sapp. split; [done|]. split; [|done].
      unfold no_dot_elements in *. rewrite elements_app_slash, (elements_slash_free _ He).
      apply Forall_app. split; [done|]. by repeat constructor.
Qed.

Lemma builder_clean_passes (elems : list string) (st : string * bool) :
  Forall (fun e => slash_free e = true) elems ->
  builder_clean st -> builder_clean (resolvePath_passes elems st).
Proof.
  revert st. induction elems as [|e es IH]; intros [dst first] Hs H; [done|].
  inversion Hs; subst. apply IH; [done|]. by apply builder_clean_step.
Qed.

Lemma finish_clean (dst : string) (first : bool) (elem : string) :
  builder_clean (dst, first) ->
  no_dot_elements (resolvePath_finish dst elem)
  /\ exists x, resolvePath_finish dst elem = String "/" x.
Proof.
  intros (d & Hd & Hn & _). cbn [fst] in Hd. subst dst. unfold resolvePath_finish.
  assert (H1 : exists d1, (if String.eqb elem "." || String.eqb elem ".."
                           then String "/" d +:+ "/" else String "/" d) = String "/" d1
                          /\ no_dot_elements d1).
  { destruct (_ || _); [|by exists d].
    exists (d +:+ String "/" ""). sapp. split; [done|].
    unfold no_dot_elements in *. rewrite elements_app_slash.
    apply Forall_app. split; [done|]. by repeat constructor. }
  destruct H1 as (d1 & -> & Hn1).
  destruct ((1 <? len (String "/" d1)) && bool_decide (at_ 1 (String "/" d1) = Some "/"%char))
    eqn:E.
  - apply andb_prop in E as [_ E]. apply bool_decide_eq_true in E.
    cbn [drop]. destruct d1 as [|c d1]; [done|]. cbn in E. inversion E; subst. eauto.
  - split; [|eauto]. unfold no_dot_elements in *. cbn [elements Ascii.eqb Bool.eqb].
    by constructor.
Qed.

Lemma last_Forall (P : string -> Prop) (l : list string) :
  l <> [] -> Forall P l -> P (List.last l "").
Proof.
  intros Hne H. rewrite (removelast_last l Hne) in H.
  apply Forall_app in H as [_ H]. by inversion H.
Qed.

(** The passes over elements that are not dot segments append them. *)
Lemma passes_append (elems : list string) :
  elems <> [] ->
  Forall (fun e => is_dot_segment e = false) elems ->
  forall dst,
    resolvePath_passes elems (dst, false)
    = (dst +:+ String "/" (join_elements elems), false).
Proof.
  induction elems as [|e es IH]; [done|]. intros _ Hall dst.
  inversion Hall as [|? ? He Hes]; subst.
  unfold is_dot_segment in He. apply orb_false_elim in He as [E1 E2].
  assert (Hstep : url.resolvePath_step dst false e = ((dst +:+ "/") +:+ e, false)).
  { unfold url.resolvePath_step. by rewrite E1, E2. }
  unfold resolvePath_passes. cbn [fold_left fst snd]. rewrite Hstep.
  destruct es as [|e' es].
  - cbn. by sapp.
  - fold (resolvePath_passes (e' :: es) ((dst +:+ "/") +:+ e, false)).
    rewrite IH by done. rewrite (join_elements_cons e) by done. by sapp.
Qed.

(** A rooted path without dot segments is left as it is. *)
Lemma resolvePath_fixed (x : string) :
  no_dot_elements (String "/" x) -> url.resolvePath (String "/" x) "" = String "/" x.
Proof.
  unfold no_dot_elements. cbn [elements Ascii.eqb Bool.eqb]. intros H.
  inversion H as [|? ? _ Hx]; subst.
  rewrite resolvePath_unfold. cbn [is_empty]. unfold resolvePath_of_full.
  cbn [is_empty elements Ascii.eqb Bool.eqb].
  pose proof (elements_nonempty x) as Hne.
  replace (List.last ("" :: elements x) "") with (List.last (elements x) "")
    by (by destruct (elements x)).
  unfold resolvePath_passes at 1. cbn [fold_left].
  change (url.resolvePath_step ("/", true).1 ("/", true).2 "") with ("/", false).
  fold (resolvePath_passes (elements x) ("/", false)).
  rewrite (passes_append (elements x) Hne Hx), join_elements_of_elements. cbn [fst].
  unfold resolvePath_finish.
  pose proof (last_Forall _ _ Hne Hx) as Hl. unfold is_dot_segment in Hl. rewrite Hl.
  reflexivity.
Qed.

Lemma resolvePath_shape (base ref : string) :
  no_dot_elements (url.resolvePath base ref)
  /\ (url.resolvePath base ref = "" \/ exists x, url.resolvePath base ref = String "/" x).
Proof.
  rewrite resolvePath_unfold. unfold resolvePath_of_full.
  destruct (is_empty _); [split; [by repeat constructor | by left]|].
  match goal with
  | |- context [resolvePath_finish (resolvePath_passes ?es ?st).1 ?l] =>
      pose proof (builder_clean_passes es st (elements_are_slash_free _)) as H;
      destruct (resolvePath_passes es st) as [dst first];
      destruct (finish_clean dst first l) as [H1 H2]
  end.
  - apply H. exists "". split; [done|]. split; [|done]. by repeat constructor.
  - split; [done | by right].
Qed.

End NormalForm.

(** X9. The path [resolvePath] returns has no [.] and no [..] element, and
    it is empty or starts with a slash, for every base path and every
    reference path. *)
Theorem resolvePath_has_no_dot_segment (base ref : string) :
  no_dot_elements (url.resolvePath base ref)
  /\ (url.resolvePath base ref = "" \/ exists x, url.resolvePath base ref = String "/" x).
Proof. apply resolvePath_shape. Qed.

(** X10. Resolving twice changes nothing: the path [resolvePath] returns
    is left as it is when it is resolved again on its own, as
    [ResolveReference] does with the path of an absolute reference. *)
Theorem resolvePath_idempotent (base ref : string) :
  url.resolvePath (url.resolvePath base ref) "" = url.resolvePath base ref.
Proof.
  destruct (resolvePath_shape base ref) as [Hn [-> | (x & Hx)]]; [done|].
  rewrite Hx in *. by apply resolvePath_fixed.
Qed.

(** X11. The URL that [ResolveReference] returns has the scheme of the
    reference, or that of the base when the reference has none: when the
    page URL has a scheme, every URL the loop prints and requests has one. *)
Theorem resolved_url_has_a_scheme (base : url.URL) (raw : string) (imgURL : url.URL) :
  url.Scheme base <> "" ->
  resolve base raw = Absolute imgURL ->
  url.Scheme imgURL <> "".
Proof.
  intros Hb Hr. unfold resolve, url.URL_Parse in Hr.
  destruct (gostr.is_empty raw); [done|].
  destruct (url.Parse raw) as [ref|]; [|done]. inversion Hr; subst. clear Hr.
  assert (Hs : url.Scheme (url.ResolveReference base ref)
               = if gostr.is_empty (url.Scheme ref) then url.Scheme base else url.Scheme ref).
  { unfold url.ResolveReference.
    repeat match goal with
           | |- context [url.setPath_ignore ?u ?p] =>
               let H := fresh in
               destruct (setPath_ignore_fields u p) as (H & _); rewrite H; clear H
           | |- context [if ?b then _ else _] => destruct b eqn:?
           end; try reflexivity; cbn [url.Scheme]; congruence. }
  rewrite Hs. destruct (url.Scheme ref) eqn:E; done.
Qed.

Lemma resolved_url_has_a_scheme_witness : url.Scheme (ex_com "/c.png") <> "".
Proof.
  apply (resolved_url_has_a_scheme (ex_com "/a/b") "../c.png" (ex_com "/c.png"));
    [discriminate | reflexivity].
Defined.

(** ** What the downloads do to the files *)

Section Files.
Context (env : Env).

Lemma take_all (s : string) : gostr.take (gostr.len s) s = s.
Proof. rewrite <- (sapp_nil_r s) at 2. apply take_app_len. Qed.

Lemma downloadFile_frame urlStr outDir fileName (fs : FS) (other : string) :
  other <> filepath.Join outDir fileName ->
  (downloadFile env urlStr outDir fileName fs).2 !! other = fs !! other.
Proof.
  intros Hne. unfold downloadFile.
  destruct (http_Get env urlStr) as [resp|]; [|done].
  destruct (negb _); [done|].
  destruct (os_Create_error env _); [done|].
  destruct (io_Copy_error env _) as [[n e]|]; cbn [snd]; by rewrite lookup_insert_ne.
Qed.

Lemma entry_frame (base : url.URL) outDir i src (fs : FS) (other : string) :
  other ∉ targets base outDir i [src] ->
  (entry env base outDir i src fs).2 !! other = fs !! other.
Proof.
  unfold entry. cbn [targets]. destruct (resolve base src) as [| |imgURL]; try done.
  intros H. rewrite app_nil_r in H. apply not_elem_of_cons in H as [H _].
  pose proof (downloadFile_frame (url.String_ imgURL) outDir
                (deriveName (url.Path imgURL) i) fs other H) as Hf.
  by destruct (downloadFile _ _ _ _ _) as [[e|] fs'].
Qed.

Lemma loop_frame (base : url.URL) outDir imgSrcs i (fs : FS) (other : string) :
  other ∉ targets base outDir i imgSrcs ->
  (loop env base outDir i imgSrcs fs).2 !! other = fs !! other.
Proof.
  revert i fs. induction imgSrcs as [|src rest IH]; intros i fs H; [done|].
  cbn [targets] in H. apply not_elem_of_app in H as [H1 H2].
  rewrite loop_cons.
  pose proof (entry_frame base outDir i src fs other) as He.
  cbn [targets] in He. rewrite app_nil_r in He. specialize (He H1).
  destruct (entry env base outDir i src fs) as [t1 fs1].
  specialize (IH (S i) fs1 H2).
  destruct (loop env base outDir (S i) rest fs1) as [t2 fs2].
  cbn [snd] in *. by rewrite IH, He.
Qed.

Lemma count_events_app kind (t1 t2 : list Event) :
  count_events kind (t1 ++ t2) = count_events kind t1 + count_events kind t2.
Proof. induction t1 as [|e t1 IH]; [done|]. cbn. rewrite IH. lia. Qed.

Lemma entry_counts (base : url.URL) outDir i src (fs : FS) :
  let t := (entry env base outDir i src fs).1 in
  count_events is_Stdout t = count_resolved base [src]
  /\ count_events is_Request t = count_resolved base [src]
  /\ count_events is_Log_SrcParse t = count_unparsable base [src]
  /\ count_events is_Log_Download t <= count_resolved base [src].
Proof.
  unfold entry. cbn [count_resolved count_unparsable].
  destruct (resolve base src) as [| |imgURL]; try (cbn; lia).
  destruct (downloadFile _ _ _ _ _) as [[e|] fs']; cbn; lia.
Qed.

End Files.

(** X12. [downloadFile] touches no path but [filepath.Join(outDir,
    fileName)]; it leaves the files as they were, or it leaves at that path
    a prefix of the body of a response with status 200 (the whole body when
    the copy is not broken off, the bytes copied so far otherwise: nothing
    is cleaned up); and when it returns no error the file holds the whole
    body. *)
Theorem downloadFile_writes_a_prefix_at_one_path
    (env : Env) (urlStr outDir fileName : string) (fs : FS) :
  let p := filepath.Join outDir fileName in
  let r := downloadFile env urlStr outDir fileName fs in
  (forall other, other <> p -> r.2 !! other = fs !! other)
  /\ (r.2 = fs
      \/ exists resp n, http_Get env urlStr = ok resp /\ http.StatusCode resp = 200
                        /\ r.2 = <[p := gostr.take n (http.Body resp)]> fs)
  /\ (r.1 = None ->
      exists resp, http_Get env urlStr = ok resp /\ r.2 !! p = Some (http.Body resp)).
Proof.
  cbn zeta. split; [intros other H; by apply downloadFile_frame|].
  unfold downloadFile.
  destruct (http_Get env urlStr) as [resp|]; [|by split; [left|]].
  destruct (Nat.eqb_spec (http.StatusCode resp) http.StatusOK) as [Hs|Hs]; cbn [negb];
    [|by split; [left|]].
  destruct (os_Create_error env _); [by split; [left|]|].
  destruct (io_Copy_error env _) as [[n e]|]; cbn [fst snd].
  - split; [|done]. right. by exists resp, n.
  - split.
    + right. exists resp, (gostr.len (http.Body resp)). by rewrite take_all.
    + intros _. exists resp. split; [done|]. apply lookup_insert_eq.
Qed.

(** X13. A file that is not the target of any entry is not touched by the
    loop: the run writes only at the joined paths of the entries that
    resolve. *)
Theorem loop_writes_only_its_targets
    (env : Env) (base : url.URL) (outDir : string) (imgSrcs : list string)
    (i : nat) (fs : FS) (other : string) :
  other ∉ targets base outDir i imgSrcs ->
  (loop env base outDir i imgSrcs fs).2 !! other = fs !! other.
Proof. apply loop_frame. Qed.

Lemma loop_writes_only_its_targets_witness :
  (loop sample_env sample_base "out" 0 ["/a.png"; ""; "http://other.test/b.jpg"]
     {[ "out/notes.txt" := "keep" ]}).2 !! "out/notes.txt" = Some "keep".
Proof.
  rewrite (loop_writes_only_its_targets sample_env sample_base "out"
             ["/a.png"; ""; "http://other.test/b.jpg"] 0 _ "out/notes.txt").
  - reflexivity.
  - vm_compute. intros H. repeat (apply elem_of_cons in H as [H|H]; [discriminate H|]).
    by apply elem_of_nil in H.
Defined.

(** X14. Names are not made unique: when an entry downloads successfully,
    and no later entry has the same joined path, the file holds the body of
    that entry after the loop, whatever earlier entries wrote at the same
    path. *)
Theorem last_download_wins
    (env : Env) (base : url.URL) (outDir : string)
    (before after : list string) (src : string) (fs : FS)
    (imgURL : url.URL) (resp : http.Response) :
  let i := length before in
  let p := filepath.Join outDir (deriveName (url.Path imgURL) i) in
  resolve base src = Absolute imgURL ->
  http_Get env (url.String_ imgURL) = ok resp ->
  http.StatusCode resp = 200 ->
  os_Create_error env p = None ->
  io_Copy_error env p = None ->
  p ∉ targets base outDir (S i) after ->
  (loop env base outDir 0 (before ++ src :: after) fs).2 !! p = Some (http.Body resp).
Proof.
  intros i p Hr Hg Hs Hc Hio Hafter.
  rewrite loop_app. destruct (loop env base outDir 0 before fs) as [t1 fs1].
  rewrite Nat.add_0_l, loop_cons. fold i.
  assert (He : (entry env base outDir i src fs1).2 !! p = Some (http.Body resp)).
  { unfold entry. rewrite Hr.
    rewrite (downloadFile_ok env _ _ _ _ resp Hg Hs). cbn zeta. fold p.
    rewrite Hc, Hio. apply lookup_insert_eq. }
  destruct (entry env base outDir i src fs1) as [te fs2].
  pose proof (loop_frame env base outDir after (S i) fs2 p Hafter) as Hf.
  destruct (loop env base outDir (S i) after fs2) as [t2 fs3].
  cbn [snd] in *. by rewrite Hf.
Qed.

Lemma last_download_wins_witness :
  (loop sample_env sample_base "out" 0
     ["http://other.test/a.png"; "/a.png"; "http://other.test/b.jpg"]
     {[ "out/a.png" := "stale" ]}).2 !! "out/a.png" = Some "PNG-bytes".
Proof.
  apply (last_download_wins sample_env sample_base "out"
           ["http://other.test/a.png"] ["http://other.test/b.jpg"] "/a.png"
           {[ "out/a.png" := "stale" ]}
           {| url.Scheme := "https"; url.Opaque := ""; url.User := None;
              url.Host := "site.test"; url.Path := "/a.png"; url.RawPath := "";
              url.OmitHost := false; url.ForceQuery := false; url.RawQuery := "";
              url.Fragment := ""; url.RawFragment := "" |} png_response);
    try reflexivity.
  vm_compute. intros H. repeat (apply elem_of_cons in H as [H|H]; [discriminate H|]).
  by apply elem_of_nil in H.
Defined.

(** X15. No retry and no deduplication: the loop prints one line and sends
    one request for every entry that resolves, logs one line for every
    entry that does not parse, and logs at most one download error per
    request. *)
Theorem loop_event_counts
    (env : Env) (base : url.URL) (outDir : string) (imgSrcs : list string)
    (i : nat) (fs : FS) :
  let t := (loop env base outDir i imgSrcs fs).1 in
  count_events is_Stdout t = count_resolved base imgSrcs
  /\ count_events is_Request t = count_resolved base imgSrcs
  /\ count_events is_Log_SrcParse t = count_unparsable base imgSrcs
  /\ count_events is_Log_Download t <= count_events is_Request t.
Proof.
  cbn zeta. revert i fs. induction imgSrcs as [|src rest IH]; intros i fs; [cbn; lia|].
  rewrite loop_cons.
  pose proof (entry_counts env base outDir i src fs) as He. cbn zeta in He.
  destruct (entry env base outDir i src fs) as [t1 fs1].
  specialize (IH (S i) fs1).
  destruct (loop env base outDir (S i) rest fs1) as [t2 fs2].
  cbn [fst] in *. rewrite !count_events_app.
  cbn [count_resolved count_unparsable] in *. lia.
Qed.

(** ** [filepath.Clean] and [filepath.Join] on plain elements *)

Section PlainPaths.
Import gostr.

Local Ltac sapp := rewrite ?sapp_assoc, ?sapp_cons, ?sapp_nil_l, ?sapp_nil_r.
Local Ltac lens := unfold len in *; cbn [String.length] in *.

Lemma plain_element_inv (e : string) :
  plain_element e = true ->
  slash_free e = true /\ e <> "" /\ e <> "." /\ e <> "..".
Proof.
  unfold plain_element, is_dot_segment. intros H.
  apply andb_prop in H as [H H3]. apply andb_prop in H as [H1 H2].
  apply negb_true_iff in H2, H3. apply orb_false_elim in H3 as [H3 H4].
  repeat split; try done.
  - by intros ->.
  - by apply String.eqb_neq.
  - by apply String.eqb_neq.
Qed.

Lemma Clean_element_plain (e rest : string) :
  slash_free e = true -> rest = "" \/ (exists r, rest = String "/" r) ->
  filepath.Clean_element (e +:+ rest) = (e, rest).
Proof.
  intros He Hr. induction e as [|c e IH].
  - rewrite sapp_nil_l. by destruct Hr as [-> | (r & ->)].
  - cbn [slash_free] in He. apply andb_prop in He as [H1 H2].
    apply negb_true_iff in H1. sapp. cbn [filepath.Clean_element].
    unfold filepath.IsPathSeparator at 1. rewrite H1. by rewrite (IH H2).
Qed.

(** One pass of the loop of [Clean] on a plain element. *)
Lemma Clean_loop_plain_pass (fuel : nat) (rooted : bool) (e rest out : string) (dd : nat) :
  plain_element e = true -> rest = "" \/ (exists r, rest = String "/" r) ->
  filepath.Clean_loop (S fuel) rooted (e +:+ rest) out dd
  = filepath.Clean_loop fuel rooted rest
      ((if Clean_needs_slash rooted out then out +:+ "/" else out) +:+ e) dd.
Proof.
  intros He Hr. destruct (plain_element_inv e He) as (Hs & Hne & Hd & Hdd).
  pose proof (Clean_element_plain e rest Hs Hr) as Hel.
  destruct e as [|c e]; [done|].
  cbn [slash_free] in Hs. apply andb_prop in Hs as [Hc Hs]. apply negb_true_iff in Hc.
  rewrite sapp_cons in *. cbn [filepath.Clean_loop].
  unfold filepath.IsPathSeparator at 1. rewrite Hc.
  fold (Clean_needs_slash rooted out).
  destruct (Ascii.eqb_spec c ".") as [->|Hdot]; cbn [andb].
  2:{ by rewrite Hel. }
  destruct e as [|c2 e].
  { done. }
  cbn [slash_free] in Hs. apply andb_prop in Hs as [Hc2 Hs]. apply negb_true_iff in Hc2.
  rewrite sapp_cons in *. unfold filepath.IsPathSeparator at 1. rewrite Hc2.
  destruct (Ascii.eqb_spec c2 ".") as [->|Hdot2].
  - destruct e as [|c3 e]; [done|].
    cbn [slash_free] in Hs. apply andb_prop in Hs as [Hc3 _]. apply negb_true_iff in Hc3.
    rewrite sapp_cons in *. unfold filepath.IsPathSeparator at 1. rewrite Hc3.
    by rewrite Hel.
  - assert (Hm : match String c2 (e +:+ rest) with
                 | String "." EmptyString => true
                 | String "." (String d _) => filepath.IsPathSeparator d
                 | _ => false
                 end = false).
    { destruct c2 as [[] [] [] [] [] [] [] []]; try reflexivity. done. }
    rewrite Hm. by rewrite Hel.
Qed.

Lemma Clean_needs_slash_after (rooted : bool) (out e : string) :
  e <> "" ->
  Clean_needs_slash rooted
    ((if Clean_needs_slash rooted out then out +:+ "/" else out) +:+ e) = true.
Proof.
  intros He. destruct e as [|c e]; [done|].
  assert (Ho : rooted = true ->
               1 <= len (if Clean_needs_slash rooted out then out +:+ "/" else out)).
  { intros ->. unfold Clean_needs_slash. cbn [andb orb negb]. rewrite orb_false_r.
    destruct (Nat.eqb_spec (len out) 1) as [E|E]; cbn [negb]; [lia|].
    rewrite len_app. lens. lia. }
  unfold Clean_needs_slash at 1. rewrite len_app.
  change (len (String c e)) with (S (len e)).
  destruct rooted; cbn [andb orb negb]; rewrite ?orb_false_r;
    apply negb_true_iff, Nat.eqb_neq; [specialize (Ho eq_refl)|]; lia.
Qed.

(** The loop of [Clean] over plain elements copies them. *)
Lemma Clean_loop_plain (elems : list string) :
  elems <> [] ->
  Forall (fun e => plain_element e = true) elems ->
  forall (fuel : nat) (rooted : bool) (out : string) (dd : nat),
    2 * length elems <= S fuel ->
    filepath.Clean_loop fuel rooted (join_elements elems) out dd
    = (if Clean_needs_slash rooted out then out +:+ "/" else out)
      +:+ join_elements elems.
Proof.
  induction elems as [|e es IH]; [done|]. intros _ Hall fuel rooted out dd Hfuel.
  inversion Hall as [|? ? He Hes]; subst.
  destruct (plain_element_inv e He) as (_ & Hne & _).
  destruct es as [|e' es].
  - cbn [join_elements]. destruct fuel as [|fuel]; [cbn in Hfuel; lia|].
    rewrite <- (sapp_nil_r e) at 1.
    rewrite Clean_loop_plain_pass by (try done; by left).
    by destruct fuel.
  - rewrite join_elements_cons by done.
    destruct fuel as [|fuel]; [cbn in Hfuel; lia|].
    rewrite Clean_loop_plain_pass by (try done; right; eauto).
    destruct fuel as [|fuel]; [cbn in Hfuel; lia|].
    cbn [filepath.Clean_loop]. unfold filepath.IsPathSeparator at 1.
    cbn [Ascii.eqb Bool.eqb].
    rewrite IH; [|done|done|cbn in *; lia].
    rewrite Clean_needs_slash_after by done. by sapp.
Qed.

Lemma len_join_plain (elems : list string) :
  elems <> [] ->
  Forall (fun e => plain_element e = true) elems ->
  2 * length elems <= S (len (join_elements elems)).
Proof.
  induction elems as [|e es IH]; [done|]. intros _ Hall.
  inversion Hall as [|? ? He Hes]; subst.
  destruct (plain_element_inv e He) as (_ & Hne & _).
  assert (1 <= len e) by (destruct e; [done | lens; lia]).
  destruct es as [|e' es]; [cbn [length join_elements]; lia|].
  rewrite join_elements_cons by done. rewrite len_app.
  assert (He' : e' :: es <> []) by done. specialize (IH He' Hes).
  change (len (String "/" ?x)) with (S (len x)). cbn [length] in *. lia.
Qed.

(** [Clean] leaves a plain path as it is. *)
Lemma Clean_plain_path (p : string) :
  p <> "" -> p <> "/" -> plain_path p -> filepath.Clean p = p.
Proof.
  intros Hne Hroot Hp. unfold plain_path in Hp. unfold filepath.Clean.
  destruct p as [|c t]; [done|]. rewrite prefix_cons, prefix_nil, andb_true_r in Hp.
  rewrite (ascii_eqb_sym "/" c) in Hp. unfold filepath.IsPathSeparator.
  destruct (Ascii.eqb_spec c "/") as [->|Hc].
  - cbn [drop] in Hp.
    pose proof (Clean_loop_plain (elements t) (elements_nonempty t) Hp
                  (len (String "/" t)) true "/" 1) as H.
    pose proof (len_join_plain (elements t) (elements_nonempty t) Hp) as Hl.
    rewrite join_elements_of_elements in H, Hl.
    rewrite H by (lens; lia). done.
  - pose proof (Clean_loop_plain (elements (String c t)) (elements_nonempty _) Hp
                  (len (String c t)) false "" 0) as H.
    pose proof (len_join_plain _ (elements_nonempty (String c t)) Hp) as Hl.
    rewrite join_elements_of_elements in H, Hl.
    rewrite H by lia. done.
Qed.

Lemma plain_path_extend (outDir name : string) :
  outDir <> "" -> outDir <> "/" -> plain_path outDir -> plain_element name = true ->
  plain_path (outDir +:+ String "/" name).
Proof.
  intros Hne Hroot Hp Hn. unfold plain_path in *.
  destruct (plain_element_inv name Hn) as (Hs & _).
  destruct outDir as [|c d]; [done|]. sapp.
  rewrite prefix_cons, prefix_nil, andb_true_r in *.
  destruct (Ascii.eqb "/" c); cbn [drop] in *.
  - rewrite elements_app_slash, (elements_slash_free _ Hs).
    apply Forall_app. split; [done|]. by repeat constructor.
  - rewrite <- sapp_cons, elements_app_slash, (elements_slash_free _ Hs).
    apply Forall_app. split; [done|]. by repeat constructor.
Qed.

Lemma deriveName_not_dot (path : string) (i : nat) : deriveName path i <> ".".
Proof.
  rewrite deriveName_cases. unfold synthesized_name.
  destruct (String.eqb _ "/" || String.eqb _ ".") eqn:E; [done|].
  apply orb_false_elim in E as [_ E]. by apply String.eqb_neq.
Qed.

End PlainPaths.

(** X16. The file lands in the output directory under the derived name:
    for an output directory written as plain elements ([out], [/tmp/out])
    and every URL path whose derived name is not [..], the path that
    [downloadFile] creates is the directory, a slash and the name, with
    nothing cleaned away. *)
Theorem file_path_is_dir_slash_name (outDir path : string) (i : nat) :
  outDir <> "" -> outDir <> "/" -> plain_path outDir ->
  deriveName path i <> ".." ->
  filepath.Join outDir (deriveName path i) = outDir +:+ "/" +:+ deriveName path i.
Proof.
  intros Hne Hroot Hp Hdd.
  destruct (derived_name_parts path i) as [Hn Hs].
  assert (Hplain : plain_element (deriveName path i) = true).
  { unfold plain_element, is_dot_segment. rewrite Hs. cbn [andb].
    apply is_empty_false in Hn. rewrite Hn. cbn [negb andb].
    pose proof (deriveName_not_dot path i) as Hd.
    apply String.eqb_neq in Hd, Hdd. by rewrite Hd, Hdd. }
  unfold filepath.Join. apply is_empty_false in Hne. rewrite Hne. cbn [negb].
  apply is_empty_false in Hne.
  apply Clean_plain_path.
  - by destruct outDir.
  - destruct outDir as [|c [|c2 d]]; try done.
  - by apply plain_path_extend.
Qed.

Lemma file_path_is_dir_slash_name_witness :
  filepath.Join "/tmp/out" (deriveName "/a/b.png" 0) = "/tmp/out/b.png".
Proof.
  apply (file_path_is_dir_slash_name "/tmp/out" "/a/b.png" 0);
    [discriminate | discriminate | | discriminate].
  unfold plain_path. cbn. by repeat constructor.
Defined.

(** ** The console line of an entry *)

(** X17. The line of an entry shows its position in the list of sources
    plus one, also when entries before it were skipped or failed: for the
    entry after [before], the loop prints [Image <length before + 1>: <url>]. *)
Theorem entry_line_shows_position
    (env : Env) (base : url.URL) (outDir : string)
    (before after : list string) (src : string) (fs : FS) (imgURL : url.URL) :
  resolve base src = Absolute imgURL ->
  Stdout ("Image " +:+ fmt_d (length before + 1) +:+ ": " +:+ url.String_ imgURL
          +:+ String "010" "")
    ∈ (loop env base outDir 0 (before ++ src :: after) fs).1.
Proof.
  intros Hr. rewrite loop_app.
  destruct (loop env base outDir 0 before fs) as [t1 fs1].
  rewrite Nat.add_0_l, loop_cons.
  assert (He : exists rest fs2, entry env base outDir (length before) src fs1
                                = (Stdout (image_line (length before) imgURL) :: rest, fs2)).
  { unfold entry. rewrite Hr. destruct (downloadFile _ _ _ _ _) as [[e|] fs2]; eauto. }
  destruct He as (rest & fs2 & ->).
  destruct (loop env base outDir (S (length before)) after fs2) as [t2 fs3].
  cbn [fst]. apply elem_of_app. right. apply elem_of_app. left. by left.
Qed.

Lemma entry_line_shows_position_witness :
  Stdout ("Image 3: http://other.test/b.jpg" +:+ String "010" "")
    ∈ (loop sample_env sample_base "out" 0 (["/a.png"; ""] ++ ["http://other.test/b.jpg"]) ∅).1.
Proof.
  apply (entry_line_shows_position sample_env sample_base "out" ["/a.png"; ""] []
           "http://other.test/b.jpg" ∅ (other_test "/b.jpg")).
  reflexivity.
Defined.

(** ** A source that is only a fragment *)

(** X18. A source that is only a fragment, [#f], resolves to the page
    itself: the URL requested has the scheme, user, host and query of the
    base and its path (dot segments removed), with the fragment of the
    source, so that the page is what gets downloaded. *)
Theorem fragment_only_src_is_the_page (base : url.URL) (f frag : string) :
  url.Opaque base = "" ->
  url.unescape f url.encodeFragment = ok frag ->
  frag <> "" ->
  exists r,
    resolve base (String "#" f) = Absolute r
    /\ url.Scheme r = url.Scheme base /\ url.User r = url.User base
    /\ url.Host r = url.Host base /\ url.RawQuery r = url.RawQuery base
    /\ url.Fragment r = frag
    /\ (forall path,
          url.unescape (url.resolvePath (url.EscapedPath base) "") url.encodePath = ok path ->
          url.Path r = path).
Proof.
  intros Ho Hf Hfrag.
  assert (Hne : f <> "") by (intros ->; cbn in Hf; by inversion Hf).
  unfold resolve, url.URL_Parse, url.Parse. cbn [gostr.is_empty].
  assert (Hc : strings.Cut (String "#" f) "#" = ("", f, true)).
  { unfold strings.Cut. cbn [strings.Index]. by rewrite prefix_cons, prefix_nil. }
  rewrite Hc. change (url.parse "" false) with (@ok url.err _ url.zero).
  apply is_empty_false in Hne. rewrite Hne.
  unfold url.setFragment. rewrite Hf. cbn [res_bind].
  eexists. split; [reflexivity|].
  unfold url.ResolveReference, url.has_user.
  cbn [url.Scheme url.Host url.User url.Opaque url.Path url.ForceQuery url.RawQuery
       url.Fragment url.RawFragment url.RawPath url.OmitHost url.zero
       gostr.is_empty negb orb andb].
  apply is_empty_false in Hfrag. rewrite Hfrag, Ho. cbn [gostr.is_empty negb andb].
  match goal with
  | |- context [url.setPath_ignore ?u ?p] =>
      destruct (setPath_ignore_fields u p) as (H1 & H2 & H3 & H4 & H5 & H6 & H7 & H8)
  end.
  rewrite H1, H3, H4, H6, H7. cbn. repeat split; try done.
  intros path Hp. by apply setPath_ignore_Path.
Qed.

Lemma fragment_only_src_is_the_page_witness :
  resolve_text "https://site.test/dir/page?x=1" "#top"
  = Some "https://site.test/dir/page?x=1#top".
Proof.
  destruct (fragment_only_src_is_the_page
              {| url.Scheme := "https"; url.Opaque := ""; url.User := None;
                 url.Host := "site.test"; url.Path := "/dir/page"; url.RawPath := "";
                 url.OmitHost := false; url.ForceQuery := false; url.RawQuery := "x=1";
                 url.Fragment := ""; url.RawFragment := "" |} "top" "top")
    as (r & Hr & _); [reflexivity | reflexivity | discriminate |].
  reflexivity.
Defined.
